(** * Resume-Builder: the two resume generators, embedded and verified

    The repository holds two programs over one data model:
    - [resume.py]  reads a resume from terminal prompts ([interactive_fill])
      and renders it with an embedded Jinja2 template ([render_html]);
    - [resume1.py] reads the same data from Streamlit form widgets and
      renders it with a second, two-column template.

    Python [str] values are modelled as lists of Unicode code points, a
    Jinja2 template as the function that yields its output pieces in
    template order (Jinja2 compiles a template to a generator and joins
    what it yields), and the prompt loop as a state-and-error monad over
    the lines still to be read from standard input. *)

From Stdlib Require Import String Ascii.
From Stdlib Require Import List NArith Arith Bool Lia.
Import ListNotations.

(* ================================================================== *)
(** * Python strings *)
(* ================================================================== *)

(** A Python [str] is a sequence of code points. *)
Definition char := N.
Definition str := list char.

(** Literal text of the source.  Rocq has no escape for the double quote
    inside a string, so a literal writes the backquote for it (neither
    source file contains a backquote); every other character of a literal
    is ASCII and stands for itself.  Characters beyond ASCII are spliced in
    as code points. *)
Definition code (a : ascii) : char :=
  if Ascii.eqb a "`"%char then 34%N else N_of_ascii a.

Fixpoint lit (s : string) : str :=
  match s with
  | EmptyString => []
  | String a r => code a :: lit r
  end.

(** Truth value of a string or of a list: non-empty. *)
Definition truthy {A} (l : list A) : bool :=
  match l with [] => false | _ :: _ => true end.

(** [x or y] on strings. *)
Definition py_or (x y : str) : str := if truthy x then x else y.

(** [str.isspace] for one character: the code points CPython's
    [Py_UNICODE_ISSPACE] accepts. *)
Definition isspace (c : char) : bool :=
  ((9 <=? c) && (c <=? 13) || (28 <=? c) && (c <=? 32)
   || (c =? 133) || (c =? 160) || (c =? 5760)
   || (8192 <=? c) && (c <=? 8202)
   || (c =? 8232) || (c =? 8233) || (c =? 8239) || (c =? 8287)
   || (c =? 12288))%N.

Fixpoint lstrip (s : str) : str :=
  match s with
  | [] => []
  | c :: r => if isspace c then lstrip r else s
  end.

Definition rstrip (s : str) : str := rev (lstrip (rev s)).

(** [s.strip()] *)
Definition strip (s : str) : str := rstrip (lstrip s).

(** [s.split("\n")], which yields at least one piece. *)
Fixpoint split_nl (s : str) : list str :=
  match s with
  | [] => [[]]
  | c :: r =>
      if (c =? 10)%N then [] :: split_nl r
      else match split_nl r with
           | h :: t => (c :: h) :: t
           | [] => [[c]]
           end
  end.

(** [sep.join(l)] *)
Fixpoint join (sep : str) (l : list str) : str :=
  match l with
  | [] => []
  | [x] => x
  | x :: r => x ++ sep ++ join sep r
  end.

(** ** Occurrence of one sequence inside another *)

(** [infix x l]: [x] is a contiguous part of [l].  On strings this is
    Python's [x in l]; it is also used on lists of template pieces. *)
Definition infix {A} (x l : list A) : Prop :=
  exists p q, l = p ++ x ++ q.

Definition occurs (x s : str) : Prop := infix x s.

Fixpoint prefixb (x s : str) : bool :=
  match x, s with
  | [], _ => true
  | _ :: _, [] => false
  | a :: x', b :: s' => (a =? b)%N && prefixb x' s'
  end.

Fixpoint occursb (x s : str) : bool :=
  match s with
  | [] => prefixb x []
  | _ :: r => prefixb x s || occursb x r
  end.

(** The strings of [xs] occur in [s] one after the other, without overlap. *)
Fixpoint in_order (xs : list str) (s : str) : Prop :=
  match xs with
  | [] => True
  | x :: r => exists p q, s = p ++ x ++ q /\ in_order r q
  end.

(** A string without the character that opens a tag. *)
Definition plain (s : str) : Prop := ~ In 60%N s.

(* ================================================================== *)
(** * The resume record *)
(* ================================================================== *)

(** The dictionaries both collectors build.  Each module is one dictionary
    shape; the fields are its keys. *)

Module Job.
Record t := mk {
  title : str; company : str; start_date : str; end_date : str;
  location : str; responsibilities : list str }.
End Job.

Module Edu.
Record t := mk {
  degree : str; institution : str; start_date : str; end_date : str;
  location : str; details : str }.
End Edu.

Module Project.
Record t := mk {
  name : str; link : str; description : str; points : list str }.
End Project.

Record ResumeRecord := mkResume {
  name : str; tagline : str; email : str; phone : str; location : str;
  linkedin : str; github : str; summary : str;
  experience : list Job.t; education : list Edu.t;
  projects : list Project.t; skills : list str; strengths : list str }.

(* ================================================================== *)
(** * Jinja2 output *)
(* ================================================================== *)

(** [{% if c %} body {% endif %}] *)
Definition tpl_if (c : bool) (body : list str) : list str :=
  if c then body else [].

(** [{% for x in l %} body {% endfor %}] *)
Definition tpl_for {A} (l : list A) (body : A -> list str) : list str :=
  flat_map body l.

(** [Template.render] joins the pieces the template yields.  Both programs
    build their template with [Template(TEMPLATE)], that is with Jinja2's
    defaults: an expression [{{ e }}] outputs [str(e)] as it is (no
    autoescape), block tags leave the surrounding white space in place,
    and the single line break that ends the template source is dropped. *)
Definition render (pieces : list str) : str := concat pieces.

(* ================================================================== *)
(** * resume.py: the prompt variant *)
(* ================================================================== *)

Module Resume.

(** ** The style sheet and the template *)

(** The source text has these characters where a dash and a middle dot
    were meant (an em dash and a dot whose UTF-8 bytes were stored as
    separate characters); the template outputs them as they stand. *)
Definition emdash : str := [226; 8364; 8221]%N.
Definition middot : str := [194; 183]%N.

(** [CSS], lines 21-34. *)
Definition CSS : str :=
  lit "
body { font-family: -apple-system, Roboto, 'Segoe UI', Arial, sans-serif; margin: 0; padding: 20px; color: #222 }
.container { max-width: 800px; margin: auto; background: #fff; padding: 28px; box-shadow: 0 2px 6px rgba(0,0,0,0.06) }
.header { display: flex; justify-content: space-between; align-items: center }
.name { font-size: 28px; font-weight: 700 }
.contact { text-align: right; font-size: 14px }
.section { margin-top: 18px }
.section h2 { font-size: 16px; margin-bottom: 8px; border-bottom: 1px solid #eee; padding-bottom: 6px }
.skill, .strength { display: block; margin-bottom: 6px; font-size: 14px }
.job, .education, .project { margin-bottom: 12px }
.job .title, .project .title { font-weight: 600 }
.job .meta, .project .meta { color: #666; font-size: 13px }
.summary { white-space: pre-wrap }
".

(** Lines 62-67 of the template: the Summary section. *)
Definition tpl_summary (data : ResumeRecord) : list str :=
  tpl_if (truthy (summary data)) ([lit "
    <div class=`section`>
      <h2>Summary</h2>
      <div class=`summary`>"; summary data; lit "</div>
    </div>
    "]).

(** Lines 73-83: the body of the loop over the jobs. *)
Definition tpl_job (job : Job.t) : list str :=
  [lit "
      <div class=`job`>
        <div class=`title`>"; Job.title job; (lit " " ++ emdash ++ lit " "); Job.company job; lit "</div>
        <div class=`meta`>"; Job.start_date job; (lit " " ++ emdash ++ lit " "); py_or (Job.end_date job) (lit "Present"); (lit " " ++ middot ++ lit " "); py_or (Job.location job) []; lit "</div>
        "]
  ++ tpl_if (truthy (Job.responsibilities job)) ([lit "
        <ul>
          "]
  ++ tpl_for (Job.responsibilities job) (fun r => [lit "
          <li>"; r; lit "</li>
          "])
  ++ [lit "
        </ul>
        "])
  ++ [lit "
      </div>
      "].

(** Lines 69-86: the Experience section. *)
Definition tpl_experience (data : ResumeRecord) : list str :=
  tpl_if (truthy (experience data)) ([lit "
    <div class=`section`>
      <h2>Experience</h2>
      "]
  ++ tpl_for (experience data) tpl_job
  ++ [lit "
    </div>
    "]).

(** Lines 92-96: the body of the loop over the education entries. *)
Definition tpl_edu (e : Edu.t) : list str :=
  [lit "
      <div class=`education`>
        <div class=`title`>"; Edu.degree e; (lit " " ++ emdash ++ lit " "); Edu.institution e; lit "</div>
        <div class=`meta`>"; Edu.start_date e; (lit " " ++ emdash ++ lit " "); py_or (Edu.end_date e) []; (lit " " ++ middot ++ lit " "); py_or (Edu.location e) []; lit "</div>
        "]
  ++ tpl_if (truthy (Edu.details e)) ([lit "<div>"; Edu.details e; lit "</div>"])
  ++ [lit "
      </div>
      "].

(** Lines 88-99: the Education section. *)
Definition tpl_education (data : ResumeRecord) : list str :=
  tpl_if (truthy (education data)) ([lit "
    <div class=`section`>
      <h2>Education</h2>
      "]
  ++ tpl_for (education data) tpl_edu
  ++ [lit "
    </div>
    "]).

(** Lines 105-116: the body of the loop over the projects. *)
Definition tpl_project (p : Project.t) : list str :=
  [lit "
      <div class=`project`>
        <div class=`title`>"; Project.name p; lit "</div>
        "]
  ++ tpl_if (truthy (Project.link p)) ([lit "<div class=`meta`>"; Project.link p; lit "</div>"])
  ++ [lit "
        "]
  ++ tpl_if (truthy (Project.description p)) ([lit "<div>"; Project.description p; lit "</div>"])
  ++ [lit "
        "]
  ++ tpl_if (truthy (Project.points p)) ([lit "
        <ul>
          "]
  ++ tpl_for (Project.points p) (fun pt => [lit "
          <li>"; pt; lit "</li>
          "])
  ++ [lit "
        </ul>
        "])
  ++ [lit "
      </div>
      "].

(** Lines 101-119: the Projects section. *)
Definition tpl_projects (data : ResumeRecord) : list str :=
  tpl_if (truthy (projects data)) ([lit "
    <div class=`section`>
      <h2>Projects</h2>
      "]
  ++ tpl_for (projects data) tpl_project
  ++ [lit "
    </div>
    "]).

(** Lines 121-130: the Skills section. *)
Definition tpl_skills (data : ResumeRecord) : list str :=
  tpl_if (truthy (skills data)) ([lit "
    <div class=`section`>
      <h2>Skills</h2>
      <ul>
      "]
  ++ tpl_for (skills data) (fun skill => [lit "
        <li>"; skill; lit "</li>
      "])
  ++ [lit "
      </ul>
    </div>
    "]).

(** Lines 132-141: the Strengths section. *)
Definition tpl_strengths (data : ResumeRecord) : list str :=
  tpl_if (truthy (strengths data)) ([lit "
    <div class=`section`>
      <h2>Strengths</h2>
      <ul>
        "]
  ++ tpl_for (strengths data) (fun s => [lit "
        <li>"; s; lit "</li>
        "])
  ++ [lit "
      </ul>
    </div>
    "]).

(** [TEMPLATE], lines 37-147, as the pieces it yields for the record
    [data], the style sheet [css] and the stamp [generated_on].  The text
    between two tags of the template is one piece, copied as it stands in
    the source, line breaks and indentation included; the sections above
    stand where their blocks stand in the template. *)
Definition TEMPLATE (data : ResumeRecord) (css generated_on : str) : list str :=
  [lit "
<!doctype html>
<html>
<head>
  <meta charset=`utf-8`>
  <meta name=`viewport` content=`width=device-width,initial-scale=1`>
  <title>"; name data; lit " - Resume</title>
  <style>"; css; lit "</style>
</head>
<body>
  <div class=`container`>
    <div class=`header`>
      <div>
        <div class=`name`>"; name data; lit "</div>
        "]
  ++ tpl_if (truthy (tagline data)) ([lit "<div>"; tagline data; lit "</div>"])
  ++ [lit "
      </div>
      <div class=`contact`>
        "]
  ++ tpl_if (truthy (email data)) ([email data; lit "<br>"])
  ++ [lit "
        "]
  ++ tpl_if (truthy (phone data)) ([phone data; lit "<br>"])
  ++ [lit "
        "]
  ++ tpl_if (truthy (location data)) ([location data; lit "<br>"])
  ++ [lit "
        "]
  ++ tpl_if (truthy (linkedin data)) ([lit "LinkedIn: "; linkedin data; lit "<br>"])
  ++ [lit "
        "]
  ++ tpl_if (truthy (github data)) ([lit "GitHub: "; github data])
  ++ [lit "
      </div>
    </div>

    "]
  ++ tpl_summary data
  ++ [lit "

    "]
  ++ tpl_experience data
  ++ [lit "

    "]
  ++ tpl_education data
  ++ [lit "

    "]
  ++ tpl_projects data
  ++ [lit "

    "]
  ++ tpl_skills data
  ++ [lit "

    "]
  ++ tpl_strengths data
  ++ [lit "

    <div style=`margin-top:20px; font-size:12px; color:#888`>Generated on "; generated_on; lit "</div>
  </div>
</body>
</html>"].

(** ** The time stamp *)

(** What [datetime.utcnow()] returns, as far as the format reads it. *)
Record datetime := mkDatetime {
  year : N; month : N; day : N; hour : N; minute : N }.

(** [datetime] holds years 1 to 9999; from 1000 on, [%Y] prints the four
    digits of the year on every platform. *)
Definition valid_datetime (t : datetime) : Prop :=
  (1000 <= year t <= 9999 /\ 1 <= month t <= 12 /\ 1 <= day t <= 31
   /\ hour t <= 23 /\ minute t <= 59)%N.

Definition digit (d : N) : char := (48 + d)%N.

(** [%m], [%d], [%H], [%M]: two digits, zero-padded. *)
Definition pad2 (n : N) : str := [digit (n / 10 mod 10); digit (n mod 10)]%N.

(** [%Y] *)
Definition pad4 (n : N) : str :=
  [digit (n / 1000 mod 10); digit (n / 100 mod 10);
   digit (n / 10 mod 10); digit (n mod 10)]%N.

(** [t.strftime('%Y-%m-%d %H:%M UTC')] *)
Definition strftime (t : datetime) : str :=
  pad4 (year t) ++ lit "-" ++ pad2 (month t) ++ lit "-" ++ pad2 (day t)
  ++ lit " " ++ pad2 (hour t) ++ lit ":" ++ pad2 (minute t) ++ lit " UTC".

(** [render_html(data, css)], with the clock reading [now] made explicit. *)
Definition render_html (data : ResumeRecord) (css : str) (now : datetime) : str :=
  render (TEMPLATE data css (strftime now)).

(** ** Reading from the terminal *)

(** Standard input is the list of lines not yet read.  A computation
    returns a value and the lines left, or stops with the [EOFError] that
    [input()] raises at the end of input.  Text written to the terminal
    (the prompts, [print]) is not part of the record and is left out. *)
Inductive result (A : Type) : Type :=
| Ok (a : A) (rest : list str)
| EOFError
| OutOfFuel.
Arguments Ok {A} a rest.
Arguments EOFError {A}.
Arguments OutOfFuel {A}.

Definition M (A : Type) : Type := list str -> result A.

Definition ret {A} (a : A) : M A := fun inp => Ok a inp.

Definition bind {A B} (c : M A) (k : A -> M B) : M B :=
  fun inp =>
    match c inp with
    | Ok a rest => k a rest
    | EOFError => EOFError
    | OutOfFuel => OutOfFuel
    end.

Notation "x <- c ;; k" := (bind c (fun x => k))
  (at level 61, c at next level, right associativity).

(** [input(prompt)]: the next line, without its line break. *)
Definition input : M str :=
  fun inp => match inp with [] => EOFError | l :: rest => Ok l rest end.

(** One round of a [while True:] loop either goes round again or leaves
    through [break]. *)
Inductive step (S : Type) : Type :=
| Continue (s : S)
| Break (s : S).
Arguments Continue {S} s.
Arguments Break {S} s.

Fixpoint loop {S} (fuel : nat) (body : S -> M (step S)) (s : S) : M S :=
  fun inp =>
    match fuel with
    | O => OutOfFuel
    | Datatypes.S fuel' =>
        match body s inp with
        | Ok (Continue s') rest => loop fuel' body s' rest
        | Ok (Break s') rest => Ok s' rest
        | EOFError => EOFError
        | OutOfFuel => OutOfFuel
        end
    end.

(** [while True: body].  Every loop of the program reads a line in each
    round, so one round per line still to be read, and one more, is
    enough fuel ([interactive_fill_returns] below). *)
Definition while_true {S} (body : S -> M (step S)) (s : S) : M S :=
  fun inp => loop (Datatypes.S (length inp)) body s inp.

(** ** interactive_fill *)

(** One round of the loop that reads bullet lines until a blank one.  The
    source has this loop four times: for [resp_lines], [subpoints],
    [subskills] and [strengths]. *)
Definition bullet_round (lines : list str) : M (step (list str)) :=
  r <- input ;;
  if negb (truthy (strip r)) then ret (Break lines)
  else ret (Continue (lines ++ [strip r])).

Definition bullet_lines : M (list str) := while_true bullet_round [].

Definition experience_round (experience : list Job.t) : M (step (list Job.t)) :=
  title <- input ;;
  if negb (truthy (strip title)) then ret (Break experience)
  else
    company <- input ;;
    start <- input ;;
    end_ <- input ;;
    loc <- input ;;
    resp_lines <- bullet_lines ;;
    ret (Continue (experience ++
      [Job.mk title company start end_ loc resp_lines])).

Definition experience_loop : M (list Job.t) := while_true experience_round [].

Definition education_round (education : list Edu.t) : M (step (list Edu.t)) :=
  degree <- input ;;
  if negb (truthy (strip degree)) then ret (Break education)
  else
    inst <- input ;;
    start <- input ;;
    end_ <- input ;;
    loc <- input ;;
    details <- input ;;
    ret (Continue (education ++
      [Edu.mk degree inst start end_ loc details])).

Definition education_loop : M (list Edu.t) := while_true education_round [].

Definition projects_round (projects : list Project.t)
  : M (step (list Project.t)) :=
  pname <- input ;;
  if negb (truthy (strip pname)) then ret (Break projects)
  else
    plink <- input ;;
    pdesc <- input ;;
    subpoints <- bullet_lines ;;
    ret (Continue (projects ++ [Project.mk pname plink pdesc subpoints])).

Definition projects_loop : M (list Project.t) := while_true projects_round [].

(** The string stored for one skill:
    [f"{main}: {', '.join(subskills)}"] if there are sub-skills, else
    [main]. *)
Definition skill_entry (main : str) (subskills : list str) : str :=
  if truthy subskills then main ++ lit ": " ++ join (lit ", ") subskills
  else main.

Definition skills_round (skills : list str) : M (step (list str)) :=
  main <- input ;;
  if negb (truthy (strip main)) then ret (Break skills)
  else
    subskills <- bullet_lines ;;
    ret (Continue (skills ++ [skill_entry main subskills])).

Definition skills_loop : M (list str) := while_true skills_round [].

Definition interactive_fill : M ResumeRecord :=
  name <- input ;;
  tagline <- input ;;
  email <- input ;;
  phone <- input ;;
  location <- input ;;
  linkedin <- input ;;
  github <- input ;;
  summary <- input ;;
  experience <- experience_loop ;;
  education <- education_loop ;;
  projects <- projects_loop ;;
  skills <- skills_loop ;;
  strengths <- bullet_lines ;;
  ret (mkResume name tagline email phone location linkedin github
         (if truthy (strip summary) then summary else [])
         experience education projects skills strengths).

(** ** main *)

(** The files [main] can see: what each path holds, and whether
    [open(path, 'w', encoding='utf-8')] succeeds on it (it raises
    [OSError] on a path that cannot be written, and [ValueError] or
    [UnicodeEncodeError] on one that is no file name).  A file is
    identified with the text written to it; the device takes every byte it
    is given. *)
Record files := mkFiles {
  content : str -> option str;
  opens : str -> bool }.

(** [text.encode('utf-8')] succeeds: UTF-8 encodes every code point but
    the surrogates U+D800 to U+DFFF.  A [str] can hold them: an
    undecodable byte of standard input is read as one under the
    [surrogateescape] handler. *)
Definition encodable (text : str) : bool :=
  forallb (fun c => (c <? 55296) || (57343 <? c))%N text.

(** What the file at [path] holds after [f.write(text)] and the end of the
    [with] block, on a path that has been opened. *)
Definition write (fs : files) (path text : str) : files :=
  mkFiles (fun p => if list_eq_dec N.eq_dec p path then Some text
                    else content fs p)
          (opens fs).

(** How the part of [main] that reads and writes ends, and the files as
    they are then: the [with] block has been left with the document in the
    file, or an exception has been raised.  [open] creates the file, or
    empties it, before [f.write] encodes the text, so a text that cannot
    be encoded leaves an empty file behind. *)
Inductive outcome : Type :=
| Saved (fs : files) (rest : list str)
| Raised_EOFError (fs : files)
| Raised_by_open (fs : files)
| Raised_UnicodeEncodeError (fs : files)
| Diverged.

(** [default='resume'] of the [--output] argument *)
Definition default_output : str := lit "resume".

(** [main()], from the parsed arguments to the end of the [with] block:
    [output] is [args.output], [inp] the lines on standard input, [now]
    the clock at the call of [render_html].  As in [interactive_fill],
    the text written to the terminal (here the two [print] calls after
    the [with] block) is left out. *)
Definition main (output : str) (inp : list str) (now : datetime) (fs : files)
  : outcome :=
  match interactive_fill inp with
  | Ok data rest =>
      let html := render_html data CSS now in
      let html_file := output ++ lit ".html" in
      if opens fs html_file then
        if encodable html then Saved (write fs html_file html) rest
        else Raised_UnicodeEncodeError (write fs html_file [])
      else Raised_by_open fs
  | EOFError => Raised_EOFError fs
  | OutOfFuel => Diverged
  end.

End Resume.

(* ================================================================== *)
(** * resume1.py: the form variant *)
(* ================================================================== *)

Module Resume1.

(** ** The style sheet and the template *)

Definition emdash : str := [8212%N].
Definition middot : str := [183%N].
Definition arrow : str := [10148%N].

(** [CSS], lines 6-61. *)
Definition CSS : str :=
  (lit "
body {
  font-family: -apple-system, Roboto, 'Segoe UI', Arial, sans-serif;
  margin: 0;
  padding: 0;
  color: #222;
}
.container {
  display: flex;
  width: 100%;
  min-height: 100vh;
}
.sidebar {
  width: 30%;
  background: #0056A0;
  color: white;
  padding: 20px;
}
.sidebar h2 {
  border-bottom: 1px solid rgba(255,255,255,0.3);
  padding-bottom: 6px;
  font-size: 16px;
}
.sidebar ul {
  list-style: none;
  padding-left: 10px;
}
.sidebar ul li::before {
  content: `" ++ arrow ++ lit " `;
  color: #fff;
  font-weight: bold;
}
.main {
  width: 70%;
  background: #fff;
  padding: 28px;
}
.main h2 {
  font-size: 16px;
  border-bottom: 1px solid #eee;
  margin-bottom: 8px;
  padding-bottom: 6px;
}
.main ul {
  list-style: none;
  padding-left: 16px;
}
.main ul li::before {
  content: `" ++ arrow ++ lit " `;
  color: #0056A0;
  font-weight: bold;
}
.title {
  font-weight: bold;
}
").

(** Lines 84-91 of the template: the Skills section. *)
Definition tpl_skills (data : ResumeRecord) : list str :=
  tpl_if (truthy (skills data)) ([lit "
    <h2>Skills</h2>
    <ul>
      "]
  ++ tpl_for (skills data) (fun skill => [lit "
        <li>"; skill; lit "</li>
      "])
  ++ [lit "
    </ul>
    "]).

(** Lines 93-100: the Strengths section. *)
Definition tpl_strengths (data : ResumeRecord) : list str :=
  tpl_if (truthy (strengths data)) ([lit "
    <h2>Strengths</h2>
    <ul>
      "]
  ++ tpl_for (strengths data) (fun s => [lit "
      <li>"; s; lit "</li>
      "])
  ++ [lit "
    </ul>
    "]).

(** Line 105: the body of the loop over the education entries. *)
Definition tpl_edu (e : Edu.t) : list str :=
  [lit "
      <div><b>"; Edu.degree e; lit "</b><br>"; Edu.institution e; lit "<br>"; Edu.start_date e; lit " - "; Edu.end_date e; lit "</div>
    "].

(** Lines 102-107: the Education section. *)
Definition tpl_education (data : ResumeRecord) : list str :=
  tpl_if (truthy (education data)) ([lit "
    <h2>Education</h2>
    "]
  ++ tpl_for (education data) tpl_edu
  ++ [lit "
    "]).

(** Lines 115-118: the Summary section. *)
Definition tpl_summary (data : ResumeRecord) : list str :=
  tpl_if (truthy (summary data)) ([lit "
    <h2>Summary</h2>
    <p>"; summary data; lit "</p>
    "]).

(** Lines 123-131: the body of the loop over the jobs. *)
Definition tpl_job (job : Job.t) : list str :=
  [lit "
      <div>
        <div class=`title`>"; Job.title job; lit "</div>
        <div>"; Job.company job; (lit " " ++ middot ++ lit " "); Job.start_date job; (lit " " ++ emdash ++ lit " "); py_or (Job.end_date job) (lit "Present"); lit "</div>
        <ul>
        "]
  ++ tpl_for (Job.responsibilities job) (fun r => [lit "
          <li>"; r; lit "</li>
        "])
  ++ [lit "
        </ul>
      </div>
    "].

(** Lines 120-133: the Experience section. *)
Definition tpl_experience (data : ResumeRecord) : list str :=
  tpl_if (truthy (experience data)) ([lit "
    <h2>Experience</h2>
    "]
  ++ tpl_for (experience data) tpl_job
  ++ [lit "
    "]).

(** Lines 138-146: the body of the loop over the projects. *)
Definition tpl_project (p : Project.t) : list str :=
  [lit "
      <div>
        <div class=`title`>"; Project.name p; lit "</div>
        "]
  ++ tpl_if (truthy (Project.description p)) ([lit "<p>"; Project.description p; lit "</p>"])
  ++ [lit "
        <ul>
        "]
  ++ tpl_for (Project.points p) (fun pt => [lit "
          <li>"; pt; lit "</li>
        "])
  ++ [lit "
        </ul>
      </div>
    "].

(** Lines 135-148: the Projects section. *)
Definition tpl_projects (data : ResumeRecord) : list str :=
  tpl_if (truthy (projects data)) ([lit "
    <h2>Projects</h2>
    "]
  ++ tpl_for (projects data) tpl_project
  ++ [lit "
    "]).

(** [TEMPLATE], lines 64-153, as the pieces it yields for the record
    [data] and the style sheet [css]. *)
Definition TEMPLATE (data : ResumeRecord) (css : str) : list str :=
  [lit "
<!doctype html>
<html>
<head>
  <meta charset=`utf-8`>
  <meta name=`viewport` content=`width=device-width,initial-scale=1`>
  <title>"; name data; lit " - Resume</title>
  <style>"; css; lit "</style>
</head>
<body>
<div class=`container`>
  <!-- Sidebar -->
  <div class=`sidebar`>
    <h2>Contact</h2>
    "]
  ++ tpl_if (truthy (email data)) ([lit "<div>"; email data; lit "</div>"])
  ++ [lit "
    "]
  ++ tpl_if (truthy (phone data)) ([lit "<div>"; phone data; lit "</div>"])
  ++ [lit "
    "]
  ++ tpl_if (truthy (location data)) ([lit "<div>"; location data; lit "</div>"])
  ++ [lit "
    "]
  ++ tpl_if (truthy (linkedin data)) ([lit "<div>LinkedIn: "; linkedin data; lit "</div>"])
  ++ [lit "
    "]
  ++ tpl_if (truthy (github data)) ([lit "<div>GitHub: "; github data; lit "</div>"])
  ++ [lit "

    "]
  ++ tpl_skills data
  ++ [lit "

    "]
  ++ tpl_strengths data
  ++ [lit "

    "]
  ++ tpl_education data
  ++ [lit "
  </div>

  <!-- Main Content -->
  <div class=`main`>
    <h1 class=`name`>"; name data; lit "</h1>
    "]
  ++ tpl_if (truthy (tagline data)) ([lit "<p>"; tagline data; lit "</p>"])
  ++ [lit "

    "]
  ++ tpl_summary data
  ++ [lit "

    "]
  ++ tpl_experience data
  ++ [lit "

    "]
  ++ tpl_projects data
  ++ [lit "
  </div>
</div>
</body>
</html>"].

(** ** The form *)

(** The values of the Streamlit widgets in one run of the script.  A
    field is the widget of that key; the widgets of a repeated group are
    keyed by the index of the entry ([title_0], [title_1], ...). *)
Module W.
Record t := mk {
  name : str; tagline : str; email : str; phone : str; location : str;
  linkedin : str; github : str; summary : str;
  exp_count : nat;
  title_ : nat -> str; company_ : nat -> str; start_ : nat -> str;
  end_ : nat -> str; loc_ : nat -> str; resps_ : nat -> str;
  edu_count : nat;
  degree_ : nat -> str; institution_ : nat -> str;
  edu_start_ : nat -> str; edu_end_ : nat -> str; edu_loc_ : nat -> str;
  edu_details_ : nat -> str;
  proj_count : nat;
  proj_name_ : nat -> str; proj_link_ : nat -> str;
  proj_desc_ : nat -> str; proj_points_ : nat -> str;
  skills_count : nat;
  skill_main_ : nat -> str; skill_sub_ : nat -> str;
  strengths : str }.
End W.

(** [text.split("\n") if text else []] *)
Definition lines_of (text : str) : list str :=
  if truthy text then split_nl text else [].

(** [for i in range(n): l.append(f i)] *)
Definition collect {A} (n : nat) (f : nat -> A) : list A := map f (seq 0 n).

Definition experience (w : W.t) : list Job.t :=
  collect (W.exp_count w) (fun i =>
    Job.mk (W.title_ w i) (W.company_ w i) (W.start_ w i) (W.end_ w i)
           (W.loc_ w i) (lines_of (W.resps_ w i))).

Definition education (w : W.t) : list Edu.t :=
  collect (W.edu_count w) (fun i =>
    Edu.mk (W.degree_ w i) (W.institution_ w i) (W.edu_start_ w i)
           (W.edu_end_ w i) (W.edu_loc_ w i) (W.edu_details_ w i)).

Definition projects (w : W.t) : list Project.t :=
  collect (W.proj_count w) (fun i =>
    Project.mk (W.proj_name_ w i) (W.proj_link_ w i) (W.proj_desc_ w i)
               (lines_of (W.proj_points_ w i))).

(** What one skill category appends to [skills]: nothing without a main
    skill, else [f"{main_skill}: {subs}"] or [main_skill]. *)
Definition skill_entry (main_skill subs : str) : list str :=
  if truthy main_skill then
    if truthy subs then [main_skill ++ lit ": " ++ subs] else [main_skill]
  else [].

Definition skills (w : W.t) : list str :=
  concat (collect (W.skills_count w) (fun i =>
    skill_entry (W.skill_main_ w i) (W.skill_sub_ w i))).

Definition strengths (w : W.t) : list str := lines_of (W.strengths w).

(** The dictionary [data] *)
Definition data (w : W.t) : ResumeRecord :=
  mkResume (W.name w) (W.tagline w) (W.email w) (W.phone w) (W.location w)
    (W.linkedin w) (W.github w) (W.summary w)
    (experience w) (education w) (projects w) (skills w) (strengths w).

(** [tpl.render(css=CSS, **data)] for any record *)
Definition tpl_render (data : ResumeRecord) : str :=
  render (TEMPLATE data CSS).

(** [html] *)
Definition html (w : W.t) : str := tpl_render (data w).

End Resume1.

(* ================================================================== *)
(** * Vocabulary of the properties *)
(* ================================================================== *)

(** The six optional sections, the heading each template gives them, and
    the test [{% if field %}] that guards them. *)
Inductive section : Type :=
| Summary | Experience | Education | Projects | Skills | Strengths.

Definition heading (s : section) : str :=
  match s with
  | Summary => lit "<h2>Summary</h2>"
  | Experience => lit "<h2>Experience</h2>"
  | Education => lit "<h2>Education</h2>"
  | Projects => lit "<h2>Projects</h2>"
  | Skills => lit "<h2>Skills</h2>"
  | Strengths => lit "<h2>Strengths</h2>"
  end.

Definition present (s : section) (data : ResumeRecord) : bool :=
  match s with
  | Summary => truthy (summary data)
  | Experience => truthy (experience data)
  | Education => truthy (education data)
  | Projects => truthy (projects data)
  | Skills => truthy (skills data)
  | Strengths => truthy (strengths data)
  end.

(** The pieces each template yields for a section. *)
Definition pieces (s : section) (data : ResumeRecord) : list str :=
  match s with
  | Summary => Resume.tpl_summary data
  | Experience => Resume.tpl_experience data
  | Education => Resume.tpl_education data
  | Projects => Resume.tpl_projects data
  | Skills => Resume.tpl_skills data
  | Strengths => Resume.tpl_strengths data
  end.

Definition pieces1 (s : section) (data : ResumeRecord) : list str :=
  match s with
  | Summary => Resume1.tpl_summary data
  | Experience => Resume1.tpl_experience data
  | Education => Resume1.tpl_education data
  | Projects => Resume1.tpl_projects data
  | Skills => Resume1.tpl_skills data
  | Strengths => Resume1.tpl_strengths data
  end.

(** Records whose texts hold no [<]: in their output every tag comes from
    the template. *)
Definition plain_job (j : Job.t) : Prop :=
  plain (Job.title j) /\ plain (Job.company j) /\ plain (Job.start_date j)
  /\ plain (Job.end_date j) /\ plain (Job.location j)
  /\ Forall plain (Job.responsibilities j).

Definition plain_edu (e : Edu.t) : Prop :=
  plain (Edu.degree e) /\ plain (Edu.institution e)
  /\ plain (Edu.start_date e) /\ plain (Edu.end_date e)
  /\ plain (Edu.location e) /\ plain (Edu.details e).

Definition plain_project (p : Project.t) : Prop :=
  plain (Project.name p) /\ plain (Project.link p)
  /\ plain (Project.description p) /\ Forall plain (Project.points p).

Definition plain_record (d : ResumeRecord) : Prop :=
  plain (name d) /\ plain (tagline d) /\ plain (email d) /\ plain (phone d)
  /\ plain (location d) /\ plain (linkedin d) /\ plain (github d)
  /\ plain (summary d)
  /\ Forall plain_job (experience d) /\ Forall plain_edu (education d)
  /\ Forall plain_project (projects d)
  /\ Forall plain (skills d) /\ Forall plain (strengths d).

(** [diverge x t]: neither of [x] and [t] is the start of the other. *)
Definition diverge (x t : str) : bool :=
  negb (prefixb x t) && negb (prefixb t x).

(** [clean x piece]: no occurrence of [x] starts inside [piece], whatever
    follows the piece. *)
Fixpoint clean (x piece : str) : bool :=
  match piece with
  | [] => true
  | _ :: r => diverge x piece && clean x r
  end.

(** A line that ends a bullet loop or a group: [not line.strip()]. *)
Definition blank (line : str) : bool := negb (truthy (strip line)).

(** The lines before the first blank line, and the lines after it. *)
Fixpoint until_blank (inp : list str) : option (list str * list str) :=
  match inp with
  | [] => None
  | l :: rest =>
      if blank l then Some ([], rest)
      else match until_blank rest with
           | Some (ls, rest') => Some (l :: ls, rest')
           | None => None
           end
  end.

(** A computation that never runs out of fuel and reads at least [k]
    lines when it returns. *)
Definition consumes {A} (c : Resume.M A) (k : nat) : Prop :=
  forall inp,
    match c inp with
    | Resume.Ok _ rest => length rest + k <= length inp
    | Resume.EOFError => True
    | Resume.OutOfFuel => False
    end.

(** The state a round leaves. *)
Definition state_of {S} (r : Resume.step S) : S :=
  match r with Resume.Continue s => s | Resume.Break s => s end.

(** The time stamp as a pattern: [d] stands for a decimal digit, every
    other character for itself. *)
Definition isdigit (c : char) : bool := ((48 <=? c) && (c <=? 57))%N.

Fixpoint matches (pattern : string) (s : str) : bool :=
  match pattern, s with
  | EmptyString, [] => true
  | String p pr, c :: r =>
      (if Ascii.eqb p "d"%char then isdigit c else (c =? code p)%N)
      && matches pr r
  | _, _ => false
  end.

(** The number a string of decimal digits writes. *)
Definition number (s : str) : N :=
  fold_left (fun acc c => (10 * acc + (c - 48))%N) s 0%N.

(** [s.endswith(a)] and [s.startswith(b)] *)
Definition startswith (s b : str) : bool := prefixb b s.
Definition endswith (s a : str) : bool := prefixb (rev a) (rev s).

(** [starts x l]: the list [l] starts with [x]. *)
Inductive starts {A} : list A -> list A -> Prop :=
| starts_nil l : starts [] l
| starts_cons a x l : starts x l -> starts (a :: x) (a :: l).

(** A string with a character that is not white space. *)
Definition has_text (s : str) : Prop :=
  exists c, In c s /\ isspace c = false.

(** The record in which only the name is set. *)
Definition only_name (n : str) : ResumeRecord :=
  mkResume n [] [] [] [] [] [] [] [] [] [] [] [].

(** A bullet as both templates write it. *)
Definition li (s : str) : str := lit "<li>" ++ s ++ lit "</li>".

(** [s[a:b]] *)
Definition slice (a b : nat) (s : str) : str := firstn (b - a) (skipn a s).

(** Sample values for the concrete runs below. *)
Definition noon : Resume.datetime := Resume.mkDatetime 2024 3 9 12 5.

(** The end date as a job shows it. *)
Definition shown_end (job : Job.t) : str :=
  match Job.end_date job with
  | [] => lit "Present"
  | _ :: _ => Job.end_date job
  end.

(** The markup of the title line of an entry and of the dates of a job,
    in the prompt variant's template ... *)
Definition job_title (job : Job.t) : str :=
  lit "<div class=`title`>" ++ Job.title job ++ lit " " ++ Resume.emdash
  ++ lit " " ++ Job.company job ++ lit "</div>".

Definition job_dates (job : Job.t) : str :=
  lit "<div class=`meta`>" ++ Job.start_date job ++ lit " " ++ Resume.emdash
  ++ lit " " ++ shown_end job ++ lit " " ++ Resume.middot ++ lit " "
  ++ Job.location job ++ lit "</div>".

Definition edu_title (e : Edu.t) : str :=
  lit "<div class=`title`>" ++ Edu.degree e ++ lit " " ++ Resume.emdash
  ++ lit " " ++ Edu.institution e ++ lit "</div>".

Definition project_title (p : Project.t) : str :=
  lit "<div class=`title`>" ++ Project.name p ++ lit "</div>".

(** ... and in the form variant's. *)
Definition job_title1 (job : Job.t) : str :=
  lit "<div class=`title`>" ++ Job.title job ++ lit "</div>".

Definition job_dates1 (job : Job.t) : str :=
  lit "<div>" ++ Job.company job ++ lit " " ++ Resume1.middot ++ lit " "
  ++ Job.start_date job ++ lit " " ++ Resume1.emdash ++ lit " "
  ++ shown_end job ++ lit "</div>".

Definition edu_title1 (e : Edu.t) : str :=
  lit "<b>" ++ Edu.degree e ++ lit "</b>".

Definition project_title1 (p : Project.t) : str :=
  lit "<div class=`title`>" ++ Project.name p ++ lit "</div>".

(** The document the prompt variant's template leaves when every block
    is skipped. *)
Definition minimal_document (n css generated_on : str) : str :=
  lit "
<!doctype html>
<html>
<head>
  <meta charset=`utf-8`>
  <meta name=`viewport` content=`width=device-width,initial-scale=1`>
  <title>"
  ++ n
  ++ lit " - Resume</title>
  <style>"
  ++ css
  ++ lit "</style>
</head>
<body>
  <div class=`container`>
    <div class=`header`>
      <div>
        <div class=`name`>"
  ++ n
  ++ lit "</div>
        
      </div>
      <div class=`contact`>
        
        
        
        
        
      </div>
    </div>

    

    

    

    

    

    

    <div style=`margin-top:20px; font-size:12px; color:#888`>Generated on "
  ++ generated_on
  ++ lit "</div>
  </div>
</body>
</html>".


(** Sample records for the concrete runs below. *)
Definition engineer : Job.t :=
  Job.mk (lit "Engineer") (lit "Acme") (lit "2020") [] []
         [lit "Built X"; lit "Shipped Y"].

Definition jane : ResumeRecord :=
  mkResume (lit "Jane Doe") [] [] [] [] [] [] [] [engineer] [] []
           [lit "Languages: Go, Rust"] [].

(** A record whose name holds the three characters HTML escapes. *)
Definition markup_name : ResumeRecord := only_name (lit "<&`").

(** A record whose summary and e-mail address are white space only. *)
Definition blank_summary : ResumeRecord :=
  mkResume (lit "Jane Doe") [] (lit " ") [] [] [] [] (lit "   ")
           [] [] [] [] [].

(** A form with one job whose responsibilities have a blank line
    between two lines, and one skill category whose sub-skills are typed
    with commas and no blanks. *)
Definition two_lines : str := lit "Built X" ++ [10; 10]%N ++ lit "Shipped Y".

Definition form : Resume1.W.t :=
  Resume1.W.mk (lit "Jane Doe") [] [] [] [] [] [] []
    1 (fun _ => lit "Engineer") (fun _ => lit "Acme") (fun _ => lit "2020")
      (fun _ => []) (fun _ => []) (fun _ => two_lines)
    0 (fun _ => []) (fun _ => []) (fun _ => []) (fun _ => []) (fun _ => [])
      (fun _ => [])
    0 (fun _ => []) (fun _ => []) (fun _ => []) (fun _ => [])
    1 (fun _ => lit "Languages") (fun _ => lit "Go,Rust")
    [].

(** ** Vocabulary of the further properties *)

(** A string that starts and ends with a character that is not white
    space. *)
Definition trimmed (s : str) : Prop :=
  match s with [] => False | c :: _ => isspace c = false end
  /\ match rev s with [] => False | c :: _ => isspace c = false end.

(** The answers that enter one entry at the prompts, in the order of the
    prompts; a list of bullets ends with an empty answer. *)
Definition job_lines (j : Job.t) : list str :=
  [Job.title j; Job.company j; Job.start_date j; Job.end_date j;
   Job.location j] ++ Job.responsibilities j ++ [[]].

Definition edu_lines (e : Edu.t) : list str :=
  [Edu.degree e; Edu.institution e; Edu.start_date e; Edu.end_date e;
   Edu.location e; Edu.details e].

Definition project_lines (p : Project.t) : list str :=
  [Project.name p; Project.link p; Project.description p]
  ++ Project.points p ++ [[]].

Definition skill_lines (ms : str * list str) : list str :=
  fst ms :: snd ms ++ [[]].

(** The answers that enter a whole record, with the skills given as main
    skills and their sub-skills; every group ends with an empty answer. *)
Definition script (d : ResumeRecord) (sk : list (str * list str)) : list str :=
  [name d; tagline d; email d; phone d; location d; linkedin d; github d;
   summary d]
  ++ flat_map job_lines (experience d) ++ [[]]
  ++ flat_map edu_lines (education d) ++ [[]]
  ++ flat_map project_lines (projects d) ++ [[]]
  ++ flat_map skill_lines sk ++ [[]]
  ++ strengths d ++ [[]].

(** Answers the prompts take as one entry each: first fields and bullets
    that are not blank. *)
Definition job_answers (j : Job.t) : Prop :=
  blank (Job.title j) = false
  /\ Forall (fun r => blank r = false) (Job.responsibilities j).

Definition project_answers (p : Project.t) : Prop :=
  blank (Project.name p) = false
  /\ Forall (fun r => blank r = false) (Project.points p).

Definition skill_answers (ms : str * list str) : Prop :=
  blank (fst ms) = false /\ Forall (fun r => blank r = false) (snd ms).

Definition answers (d : ResumeRecord) (sk : list (str * list str)) : Prop :=
  Forall job_answers (experience d)
  /\ Forall (fun e => blank (Edu.degree e) = false) (education d)
  /\ Forall project_answers (projects d)
  /\ Forall skill_answers sk
  /\ Forall (fun r => blank r = false) (strengths d).

(** What the collector stores for these answers. *)
Definition stored_job (j : Job.t) : Job.t :=
  Job.mk (Job.title j) (Job.company j) (Job.start_date j) (Job.end_date j)
         (Job.location j) (map strip (Job.responsibilities j)).

Definition stored_project (p : Project.t) : Project.t :=
  Project.mk (Project.name p) (Project.link p) (Project.description p)
             (map strip (Project.points p)).

Definition stored_skill (ms : str * list str) : str :=
  Resume.skill_entry (fst ms) (map strip (snd ms)).

Definition stored (d : ResumeRecord) (sk : list (str * list str))
  : ResumeRecord :=
  mkResume (name d) (tagline d) (email d) (phone d) (location d)
    (linkedin d) (github d)
    (if blank (summary d) then [] else summary d)
    (map stored_job (experience d)) (education d)
    (map stored_project (projects d)) (map stored_skill sk)
    (map strip (strengths d)).

(** A record that needs no stripping: its bullets are trimmed and its
    summary is empty or holds text. *)
Definition trimmed_record (d : ResumeRecord) : Prop :=
  (summary d = [] \/ blank (summary d) = false)
  /\ Forall (fun j => Forall trimmed (Job.responsibilities j)) (experience d)
  /\ Forall (fun p => Forall trimmed (Project.points p)) (projects d)
  /\ Forall trimmed (strengths d).

(** The record as the form variant's template reads it: the location of
    a job, the location and details of an education entry and the link
    of a project are not looked at. *)
Definition read1_job (j : Job.t) : Job.t :=
  Job.mk (Job.title j) (Job.company j) (Job.start_date j) (Job.end_date j)
         [] (Job.responsibilities j).

Definition read1_edu (e : Edu.t) : Edu.t :=
  Edu.mk (Edu.degree e) (Edu.institution e) (Edu.start_date e)
         (Edu.end_date e) [] [].

Definition read1_project (p : Project.t) : Project.t :=
  Project.mk (Project.name p) [] (Project.description p) (Project.points p).

Definition read1 (d : ResumeRecord) : ResumeRecord :=
  mkResume (name d) (tagline d) (email d) (phone d) (location d)
    (linkedin d) (github d) (summary d)
    (map read1_job (experience d)) (map read1_edu (education d))
    (map read1_project (projects d)) (skills d) (strengths d).

(** The bounds the form's number inputs put on the counts
    ([min_value=0], [max_value=10], and 5 for education). *)
Definition in_range (w : Resume1.W.t) : Prop :=
  Resume1.W.exp_count w <= 10 /\ Resume1.W.edu_count w <= 5
  /\ Resume1.W.proj_count w <= 10 /\ Resume1.W.skills_count w <= 10.

(** A line of a text area: no line break in it. *)
Definition one_line (s : str) : Prop := ~ In 10%N s.

(** The lines of the dates of an education entry, in the prompt
    variant's template and in the form variant's. *)
Definition edu_dates (e : Edu.t) : str :=
  lit "<div class=`meta`>" ++ Edu.start_date e ++ lit " " ++ Resume.emdash
  ++ lit " " ++ Edu.end_date e ++ lit " " ++ Resume.middot ++ lit " "
  ++ Edu.location e ++ lit "</div>".

Definition edu_dates1 (e : Edu.t) : str :=
  lit "<br>" ++ Edu.institution e ++ lit "<br>" ++ Edu.start_date e
  ++ lit " - " ++ Edu.end_date e ++ lit "</div>".

(** ** The body of a section *)

(** An item that is shown for a text that is not empty. *)
Definition shown_if (x item : str) : list str :=
  if truthy x then [item] else [].

Definition edu_details (e : Edu.t) : str :=
  lit "<div>" ++ Edu.details e ++ lit "</div>".

Definition project_link (p : Project.t) : str :=
  lit "<div class=`meta`>" ++ Project.link p ++ lit "</div>".

Definition project_text (p : Project.t) : str :=
  lit "<div>" ++ Project.description p ++ lit "</div>".

Definition project_text1 (p : Project.t) : str :=
  lit "<p>" ++ Project.description p ++ lit "</p>".

(** What an entry shows, from top to bottom, in the prompt variant ... *)
Definition job_items (job : Job.t) : list str :=
  [job_title job; job_dates job] ++ map li (Job.responsibilities job).

Definition edu_items (e : Edu.t) : list str :=
  [edu_title e; edu_dates e] ++ shown_if (Edu.details e) (edu_details e).

Definition project_items (p : Project.t) : list str :=
  [project_title p] ++ shown_if (Project.link p) (project_link p)
  ++ shown_if (Project.description p) (project_text p)
  ++ map li (Project.points p).

(** ... and in the form variant. *)
Definition job_items1 (job : Job.t) : list str :=
  [job_title1 job; job_dates1 job] ++ map li (Job.responsibilities job).

Definition edu_items1 (e : Edu.t) : list str :=
  [edu_title1 e; edu_dates1 e].

Definition project_items1 (p : Project.t) : list str :=
  [project_title1 p] ++ shown_if (Project.description p) (project_text1 p)
  ++ map li (Project.points p).

(** The body of a section: what stands under its heading, from top to
    bottom, in the prompt variant and in the form variant.  The summary
    stands in an element of its own, the entries of a group one after the
    other, the skills and strengths as list elements. *)
Definition body (s : section) (data : ResumeRecord) : list str :=
  match s with
  | Summary => [lit "<div class=`summary`>" ++ summary data ++ lit "</div>"]
  | Experience => flat_map job_items (experience data)
  | Education => flat_map edu_items (education data)
  | Projects => flat_map project_items (projects data)
  | Skills => map li (skills data)
  | Strengths => map li (strengths data)
  end.

Definition body1 (s : section) (data : ResumeRecord) : list str :=
  match s with
  | Summary => [lit "<p>" ++ summary data ++ lit "</p>"]
  | Experience => flat_map job_items1 (experience data)
  | Education => flat_map edu_items1 (education data)
  | Projects => flat_map project_items1 (projects data)
  | Skills => map li (skills data)
  | Strengths => map li (strengths data)
  end.

(** The document the form variant's template leaves when every block is
    skipped. *)
Definition minimal_document1 (n css : str) : str :=
  lit "
<!doctype html>
<html>
<head>
  <meta charset=`utf-8`>
  <meta name=`viewport` content=`width=device-width,initial-scale=1`>
  <title>"
  ++ n
  ++ lit " - Resume</title>
  <style>"
  ++ css
  ++ lit "</style>
</head>
<body>
<div class=`container`>
  <!-- Sidebar -->
  <div class=`sidebar`>
    <h2>Contact</h2>
    
    
    
    
    

    

    

    
  </div>

  <!-- Main Content -->
  <div class=`main`>
    <h1 class=`name`>"
  ++ n
  ++ lit "</h1>
    

    

    

    
  </div>
</div>
</body>
</html>".

(** A form with one education entry and one project, the highlights of
    the project on two lines. *)
Definition graduate : Resume1.W.t :=
  Resume1.W.mk (lit "Jane Doe") [] [] [] [] [] [] []
    0 (fun _ => []) (fun _ => []) (fun _ => []) (fun _ => []) (fun _ => [])
      (fun _ => [])
    1 (fun _ => lit "BSc") (fun _ => lit "MIT") (fun _ => lit "2016")
      (fun _ => lit "2019") (fun _ => lit "Boston") (fun _ => lit "Physics")
    1 (fun _ => lit "Site") (fun _ => lit "example.org") (fun _ => lit "A site")
      (fun _ => lit "Fast" ++ [10%N] ++ lit "Small")
    0 (fun _ => []) (fun _ => [])
    [].

(** A file system with nothing in it, on which every path can be opened. *)
Definition no_files : Resume.files :=
  Resume.mkFiles (fun _ => None) (fun _ => true).

(* ================================================================== *)
(** * Lemmas on sequences and occurrences *)
(* ================================================================== *)

Section Infix.
Context {A : Type}.
Implicit Types x l a b : list A.

Lemma infix_refl x : infix x x.
Proof. exists [], []. now rewrite app_nil_r. Qed.

Lemma infix_here x q : infix x (x ++ q).
Proof. now exists [], q. Qed.

Lemma infix_app_l x a l : infix x l -> infix x (a ++ l).
Proof.
  intros (p & q & ->). exists (a ++ p), q. now rewrite app_assoc.
Qed.

Lemma infix_app_r x l b : infix x l -> infix x (l ++ b).
Proof.
  intros (p & q & ->). exists p, (q ++ b). now rewrite <- !app_assoc.
Qed.

Lemma infix_cons x c l : infix x l -> infix x (c :: l).
Proof. apply (infix_app_l x [c] l). Qed.

Lemma infix_trans x l m : infix x l -> infix l m -> infix x m.
Proof.
  intros H (p & q & ->). now apply infix_app_l, infix_app_r.
Qed.

Lemma infix_In (c : A) l : In c l -> infix [c] l.
Proof.
  intros H. apply in_split in H as (p & q & ->). now exists p, q.
Qed.
End Infix.

Lemma infix_concat (X L : list str) : infix X L -> occurs (concat X) (concat L).
Proof.
  intros (p & q & ->). exists (concat p), (concat q).
  now rewrite !concat_app.
Qed.

Lemma infix_flat_map {A B} (f : A -> list B) (a : A) (l : list A) :
  In a l -> infix (f a) (flat_map f l).
Proof.
  intros H. apply in_split in H as (p & q & ->).
  rewrite flat_map_app. simpl. apply infix_app_l, infix_here.
Qed.

Lemma prefixb_true (x s : str) : prefixb x s = true <-> exists q, s = x ++ q.
Proof.
  revert s. induction x as [|a x IH]; intros s; simpl.
  - split; [intros _; now exists s | reflexivity].
  - destruct s as [|b s].
    + split; [discriminate | intros (q & H); discriminate].
    + rewrite andb_true_iff, N.eqb_eq, IH. split.
      * intros (-> & q & ->). now exists q.
      * intros (q & H). injection H as -> ->. split; [reflexivity | now exists q].
Qed.

Lemma occursb_true (x s : str) : occursb x s = true <-> occurs x s.
Proof.
  induction s as [|c s IH]; simpl.
  - rewrite prefixb_true. split.
    + intros (q & H). exists [], q. exact H.
    + intros (p & q & H). destruct p; [now exists q |discriminate].
  - rewrite orb_true_iff, IH, prefixb_true. split.
    + intros [(q & H) | H]; [exists [], q; exact H | now apply infix_cons].
    + intros (p & q & H). destruct p as [|c' p].
      * left. now exists q.
      * right. injection H as _ ->. now exists p, q.
Qed.

Lemma occursb_false (x s : str) : occursb x s = false <-> ~ occurs x s.
Proof.
  rewrite <- occursb_true. destruct (occursb x s); split; congruence.
Qed.

(** ** Where an occurrence cannot start *)

Lemma prefix_comparable (x t R : str) :
  (exists q, t ++ R = x ++ q) -> prefixb x t = true \/ prefixb t x = true.
Proof.
  revert t. induction x as [|a x IH]; intros t (q & H).
  - now left.
  - destruct t as [|b t]; [now right|].
    simpl in H. injection H as -> H. simpl. rewrite N.eqb_refl. simpl.
    apply IH. now exists q.
Qed.

Lemma clean_skip (x t R : str) :
  x <> [] -> clean x t = true -> occurs x (t ++ R) -> occurs x R.
Proof.
  intros Hx. induction t as [|c t IH]; simpl; intros Hc Ho; [exact Ho|].
  apply andb_true_iff in Hc as [Hd Hc].
  destruct Ho as (p & q & H). destruct p as [|c' p].
  - exfalso. unfold diverge in Hd.
    destruct (prefix_comparable x (c :: t) R) as [E|E];
      [now exists q | rewrite E in Hd; discriminate
      | rewrite E in Hd; rewrite andb_false_r in Hd; discriminate].
  - injection H as _ H. apply IH; [exact Hc | now exists p, q].
Qed.

Lemma clean_absent (x : str) (L : list str) :
  x <> [] -> Forall (fun p => clean x p = true) L -> ~ occurs x (concat L).
Proof.
  intros Hx. induction 1 as [|t L Ht _ IH]; simpl.
  - intros (p & q & H). destruct p; [destruct x; [congruence|] |]; discriminate.
  - intros Ho. apply IH. now apply clean_skip with t.
Qed.

Lemma plain_clean (x' s : str) : plain s -> clean (60%N :: x') s = true.
Proof.
  unfold plain. induction s as [|c s IH]; intros H; [reflexivity|].
  assert (c <> 60%N) as Hc by (intros ->; apply H; now left).
  assert (clean (60%N :: x') s = true) as Hs
    by (apply IH; intros Hin; apply H; now right).
  cbn [clean]. rewrite Hs. unfold diverge. cbn [prefixb].
  apply N.eqb_neq in Hc. rewrite Hc. rewrite N.eqb_sym, Hc. reflexivity.
Qed.

Lemma heading_tag (s : section) : exists x', heading s = 60%N :: x'.
Proof. destruct s; eexists; reflexivity. Qed.

Lemma heading_not_nil (s : section) : heading s <> [].
Proof. destruct (heading_tag s) as (x' & ->). discriminate. Qed.

Lemma plain_clean_heading (sec : section) (s : str) :
  plain s -> clean (heading sec) s = true.
Proof. destruct (heading_tag sec) as (x' & ->). apply plain_clean. Qed.

Lemma Forall_tpl_if (P : str -> Prop) (c : bool) (body : list str) :
  Forall P body -> Forall P (tpl_if c body).
Proof. destruct c; simpl; auto. Qed.

Lemma Forall_tpl_for {A} (P : str -> Prop) (Q : A -> Prop) (l : list A)
      (body : A -> list str) :
  Forall Q l -> (forall a, Q a -> Forall P (body a)) -> Forall P (tpl_for l body).
Proof.
  intros Hl Hb. apply Forall_flat_map.
  eapply Forall_impl; [|exact Hl]. exact Hb.
Qed.

(** Splits a claim on all pieces of a template into its pieces; [entry]
    settles the pieces of a whole entry. *)
Ltac split_pieces_with entry :=
  repeat first
    [ solve [entry]
    | apply Forall_nil
    | apply Forall_cons
    | apply Forall_app; split
    | match goal with
      | H : truthy ?f = false |- Forall _ (tpl_if (truthy ?f) _) =>
          rewrite H; apply Forall_nil
      end
    | apply Forall_tpl_if
    | eapply Forall_tpl_for; [eassumption | intros ? ?] ].

Ltac split_pieces := split_pieces_with fail.

(** A piece is clean for a heading: it is plain text of the record, or
    template text that is checked by evaluation. *)
Ltac clean_literal :=
  first
    [ vm_compute; reflexivity
    | match goal with
      | |- clean (heading ?s) _ = true => destruct s; vm_compute; reflexivity
      end ].

Ltac clean_piece :=
  first
    [ apply plain_clean_heading; assumption
    | unfold py_or;
      match goal with
      | |- context [truthy ?f] =>
          destruct (truthy f);
          first [ apply plain_clean_heading; assumption | clean_literal ]
      end
    | clean_literal ].

Lemma clean_tpl_job (sec : section) (job : Job.t) :
  plain_job job ->
  Forall (fun p => clean (heading sec) p = true) (Resume.tpl_job job).
Proof.
  intros (? & ? & ? & ? & ? & ?). unfold Resume.tpl_job.
  split_pieces; clean_piece.
Qed.

Lemma clean_tpl_edu (sec : section) (e : Edu.t) :
  plain_edu e ->
  Forall (fun p => clean (heading sec) p = true) (Resume.tpl_edu e).
Proof.
  intros (? & ? & ? & ? & ? & ?). unfold Resume.tpl_edu.
  split_pieces; clean_piece.
Qed.

Lemma clean_tpl_project (sec : section) (p : Project.t) :
  plain_project p ->
  Forall (fun p => clean (heading sec) p = true) (Resume.tpl_project p).
Proof.
  intros (? & ? & ? & ?). unfold Resume.tpl_project.
  split_pieces; clean_piece.
Qed.

Lemma clean_tpl1_job (sec : section) (job : Job.t) :
  plain_job job ->
  Forall (fun p => clean (heading sec) p = true) (Resume1.tpl_job job).
Proof.
  intros (? & ? & ? & ? & ? & ?). unfold Resume1.tpl_job.
  split_pieces; clean_piece.
Qed.

Lemma clean_tpl1_edu (sec : section) (e : Edu.t) :
  plain_edu e ->
  Forall (fun p => clean (heading sec) p = true) (Resume1.tpl_edu e).
Proof.
  intros (? & ? & ? & ? & ? & ?). unfold Resume1.tpl_edu.
  split_pieces; clean_piece.
Qed.

Lemma clean_tpl1_project (sec : section) (p : Project.t) :
  plain_project p ->
  Forall (fun p => clean (heading sec) p = true) (Resume1.tpl_project p).
Proof.
  intros (? & ? & ? & ?). unfold Resume1.tpl_project.
  split_pieces; clean_piece.
Qed.

(** The heading of a section whose field is empty starts nowhere in the
    pieces of the prompt variant's template. *)
Lemma clean_TEMPLATE (sec : section) (d : ResumeRecord) (css g : str) :
  plain_record d -> plain css -> plain g -> present sec d = false ->
  Forall (fun p => clean (heading sec) p = true) (Resume.TEMPLATE d css g).
Proof.
  intros (? & ? & ? & ? & ? & ? & ? & ? & Hj & He & Hp & ? & ?) ? ? Hs.
  unfold Resume.TEMPLATE, Resume.tpl_summary, Resume.tpl_experience,
    Resume.tpl_education, Resume.tpl_projects, Resume.tpl_skills,
    Resume.tpl_strengths.
  destruct sec; simpl in Hs;
    split_pieces_with
      ltac:(first [ apply clean_tpl_job; assumption
                  | apply clean_tpl_edu; assumption
                  | apply clean_tpl_project; assumption ]);
    clean_piece.
Qed.

(** ** Finding text in the output *)

Lemma truthy_true {A} (l : list A) : truthy l = true <-> l <> [].
Proof. destruct l; simpl; split; congruence. Qed.

Lemma truthy_false {A} (l : list A) : truthy l = false <-> l = [].
Proof. destruct l; simpl; split; congruence. Qed.

Lemma In_truthy {A} (a : A) (l : list A) : In a l -> truthy l = true.
Proof. destruct l; simpl; [tauto | reflexivity]. Qed.

Lemma startswith_true (s b : str) : startswith s b = true -> exists q, s = b ++ q.
Proof. apply prefixb_true. Qed.

Lemma endswith_true (s a : str) : endswith s a = true -> exists p, s = p ++ a.
Proof.
  intros H. apply prefixb_true in H as (q & H). exists (rev q).
  rewrite <- (rev_involutive s), H, rev_app_distr, rev_involutive. reflexivity.
Qed.

(** Text that runs from the end of one piece, over the pieces [mid], to
    the start of another piece occurs in the output. *)
Lemma occurs_across (a b A B : str) (mid L : list str) :
  infix (A :: mid ++ [B]) L ->
  endswith A a = true -> startswith B b = true ->
  occurs (a ++ concat mid ++ b) (concat L).
Proof.
  intros HL Ha Hb. apply endswith_true in Ha as (p & ->).
  apply startswith_true in Hb as (q & ->).
  eapply infix_trans; [|apply infix_concat, HL].
  simpl. rewrite concat_app. simpl. exists p, q.
  rewrite <- !app_assoc. rewrite app_nil_r. reflexivity.
Qed.

Lemma in_order_app_r (xs : list str) (s b : str) :
  in_order xs s -> in_order xs (s ++ b).
Proof.
  revert s. induction xs as [|x xs IH]; intros s; simpl; [trivial|].
  intros (p & q & -> & Hq). exists p, (q ++ b). split.
  - now rewrite <- !app_assoc.
  - now apply IH.
Qed.

Lemma in_order_app_l (xs : list str) (s a : str) :
  in_order xs s -> in_order xs (a ++ s).
Proof.
  destruct xs as [|x xs]; [trivial|].
  intros (p & q & -> & Hq). exists (a ++ p), q. split.
  - now rewrite app_assoc.
  - exact Hq.
Qed.

Lemma in_order_occurs (xs : list str) (s t : str) :
  in_order xs s -> occurs s t -> in_order xs t.
Proof.
  intros H (p & q & ->). now apply in_order_app_l, in_order_app_r.
Qed.

(** A loop outputs its items in the order of the list. *)
Lemma in_order_tpl_for {A} (g : A -> str) (body : A -> list str) (l : list A) :
  (forall a, In a l -> occurs (g a) (concat (body a))) ->
  in_order (map g l) (concat (tpl_for l body)).
Proof.
  unfold tpl_for. induction l as [|a l IH]; intros H; simpl; [trivial|].
  destruct (H a) as (p & q & E); [now left|].
  exists p, (q ++ concat (flat_map body l)). split.
  - rewrite concat_app, E, <- !app_assoc. reflexivity.
  - apply in_order_app_l, IH. intros a' Ha'. apply H. now right.
Qed.

Lemma starts_infix {A} (x l : list A) : starts x l -> infix x l.
Proof.
  intros H. exists []. simpl. induction H as [l|a x l _ (q & ->)].
  - now exists l.
  - now exists q.
Qed.

Lemma tpl_if_true (c : bool) (body : list str) :
  c = true -> tpl_if c body = body.
Proof. now intros ->. Qed.

(** Looks for a run of pieces in a template, entering the blocks whose
    test is known to hold and the loops over a list with a known element. *)
Ltac guard_holds :=
  first [ assumption | eapply In_truthy; eassumption
        | apply truthy_true; assumption ].

Ltac find_infix :=
  multimatch goal with
  | |- infix _ _ => apply infix_refl
  | |- infix _ (_ :: _) => solve [apply starts_infix; repeat constructor]
  | |- infix _ (_ ++ _) => apply infix_here
  | |- infix _ (_ :: _) => apply infix_cons; find_infix
  | |- infix _ (_ ++ _) => apply infix_app_r; find_infix
  | |- infix _ (_ ++ _) => apply infix_app_l; find_infix
  | |- infix _ (tpl_if _ _) =>
      rewrite tpl_if_true by guard_holds; find_infix
  | H : In ?a ?l |- infix _ (tpl_for ?l ?f) =>
      apply infix_trans with (f a);
      [cbv beta; find_infix | apply (infix_flat_map f a l H)]
  end.

Lemma occurs_eq (x y s : str) : x = y -> occurs y s -> occurs x s.
Proof. now intros ->. Qed.

Lemma py_or_nil (y : str) : py_or [] y = y.
Proof. reflexivity. Qed.

Lemma py_or_cons (c : char) (x y : str) : py_or (c :: x) y = c :: x.
Proof. reflexivity. Qed.

(** Text across pieces: the text is [a], the pieces [mid] and [b]; the
    pieces are found in the template and the ends checked by evaluation. *)
Ltac find_text a mid b :=
  apply (occurs_eq _ (a ++ concat mid ++ b));
  [ cbn [concat]; rewrite ?app_nil_r, <- ?app_assoc; reflexivity
  | eapply occurs_across;
    [ cbn [app]; find_infix
    | vm_compute; reflexivity
    | vm_compute; reflexivity ] ].

(** Text that is a run of whole pieces. *)
Ltac find_pieces X :=
  apply (occurs_eq _ (concat X));
  [ cbn [concat]; rewrite ?app_nil_r, <- ?app_assoc; reflexivity
  | apply infix_concat; find_infix ].

(** ** Where the entries and the lists stand in the two templates *)

Section InTemplate.
Variable d : ResumeRecord.
Variables css g : str.

Lemma job_in_template (job : Job.t) :
  In job (experience d) ->
  infix (Resume.tpl_job job) (Resume.TEMPLATE d css g).
Proof.
  intros Hin. unfold Resume.TEMPLATE, Resume.tpl_experience. find_infix.
Qed.

Lemma edu_in_template (e : Edu.t) :
  In e (education d) ->
  infix (Resume.tpl_edu e) (Resume.TEMPLATE d css g).
Proof.
  intros Hin. unfold Resume.TEMPLATE, Resume.tpl_education. find_infix.
Qed.

Lemma project_in_template (p : Project.t) :
  In p (projects d) ->
  infix (Resume.tpl_project p) (Resume.TEMPLATE d css g).
Proof.
  intros Hin. unfold Resume.TEMPLATE, Resume.tpl_projects. find_infix.
Qed.

Lemma job_in_template1 (job : Job.t) :
  In job (experience d) ->
  infix (Resume1.tpl_job job) (Resume1.TEMPLATE d css).
Proof.
  intros Hin. unfold Resume1.TEMPLATE, Resume1.tpl_experience. find_infix.
Qed.

Lemma edu_in_template1 (e : Edu.t) :
  In e (education d) ->
  infix (Resume1.tpl_edu e) (Resume1.TEMPLATE d css).
Proof.
  intros Hin. unfold Resume1.TEMPLATE, Resume1.tpl_education. find_infix.
Qed.

Lemma project_in_template1 (p : Project.t) :
  In p (projects d) ->
  infix (Resume1.tpl_project p) (Resume1.TEMPLATE d css).
Proof.
  intros Hin. unfold Resume1.TEMPLATE, Resume1.tpl_projects. find_infix.
Qed.

(** The pieces of a section stand in the template. *)
Lemma section_in_template (sec : section) :
  infix (pieces sec d) (Resume.TEMPLATE d css g).
Proof.
  unfold Resume.TEMPLATE. destruct sec; cbn [pieces]; find_infix.
Qed.

Lemma section_in_template1 (sec : section) :
  infix (pieces1 sec d) (Resume1.TEMPLATE d css).
Proof.
  unfold Resume1.TEMPLATE. destruct sec; cbn [pieces1]; find_infix.
Qed.
End InTemplate.

(** ** The headings of the sections *)

Lemma clean_TEMPLATE1 (sec : section) (d : ResumeRecord) (css : str) :
  plain_record d -> plain css -> present sec d = false ->
  Forall (fun p => clean (heading sec) p = true) (Resume1.TEMPLATE d css).
Proof.
  intros (? & ? & ? & ? & ? & ? & ? & ? & Hj & He & Hp & ? & ?) ? Hs.
  unfold Resume1.TEMPLATE, Resume1.tpl_summary, Resume1.tpl_experience,
    Resume1.tpl_education, Resume1.tpl_projects, Resume1.tpl_skills,
    Resume1.tpl_strengths.
  destruct sec; simpl in Hs;
    split_pieces_with
      ltac:(first [ apply clean_tpl1_job; assumption
                  | apply clean_tpl1_edu; assumption
                  | apply clean_tpl1_project; assumption ]);
    clean_piece.
Qed.

Lemma plain_forallb (s : str) :
  forallb (fun c => negb (c =? 60)%N) s = true -> plain s.
Proof.
  unfold plain. intros H Hin. rewrite forallb_forall in H.
  apply H in Hin. rewrite N.eqb_refl in Hin. discriminate.
Qed.

Lemma plain_CSS : plain Resume.CSS.
Proof. apply plain_forallb. vm_compute. reflexivity. Qed.

Lemma plain_CSS1 : plain Resume1.CSS.
Proof. apply plain_forallb. vm_compute. reflexivity. Qed.

Lemma plain_app (a b : str) : plain a -> plain b -> plain (a ++ b).
Proof. unfold plain. intros Ha Hb Hin. apply in_app_or in Hin. tauto. Qed.

Lemma mod10_lt (n : N) : (n mod 10 < 10)%N.
Proof. apply N.mod_lt. discriminate. Qed.

Lemma digit_not_tag (n : N) : Resume.digit (n mod 10) <> 60%N.
Proof. unfold Resume.digit. pose proof (mod10_lt n). lia. Qed.

Lemma plain_pad2 (n : N) : plain (Resume.pad2 n).
Proof.
  unfold plain, Resume.pad2. simpl.
  pose proof (digit_not_tag (n / 10)). pose proof (digit_not_tag n).
  intuition congruence.
Qed.

Lemma plain_pad4 (n : N) : plain (Resume.pad4 n).
Proof.
  unfold plain, Resume.pad4. simpl.
  pose proof (digit_not_tag (n / 1000)). pose proof (digit_not_tag (n / 100)).
  pose proof (digit_not_tag (n / 10)). pose proof (digit_not_tag n).
  intuition congruence.
Qed.

Lemma plain_strftime (now : Resume.datetime) : plain (Resume.strftime now).
Proof.
  unfold Resume.strftime.
  repeat first [ apply plain_app | apply plain_pad2 | apply plain_pad4
               | apply plain_forallb; vm_compute; reflexivity ].
Qed.

Lemma occurs_first_piece (x L : str) (rest : list str) :
  occursb x L = true -> occurs x (concat (L :: rest)).
Proof.
  intros H. apply occursb_true in H. simpl. now apply infix_app_r.
Qed.

(** A section whose field is not empty yields its heading. *)
Lemma heading_in_pieces (sec : section) (d : ResumeRecord) :
  present sec d = true -> occurs (heading sec) (concat (pieces sec d)).
Proof.
  destruct sec; cbn [present pieces]; intros H;
    unfold Resume.tpl_summary, Resume.tpl_experience, Resume.tpl_education,
      Resume.tpl_projects, Resume.tpl_skills, Resume.tpl_strengths;
    rewrite H; cbn [tpl_if app];
    apply occurs_first_piece; vm_compute; reflexivity.
Qed.

Lemma heading_in_pieces1 (sec : section) (d : ResumeRecord) :
  present sec d = true -> occurs (heading sec) (concat (pieces1 sec d)).
Proof.
  destruct sec; cbn [present pieces1]; intros H;
    unfold Resume1.tpl_summary, Resume1.tpl_experience, Resume1.tpl_education,
      Resume1.tpl_projects, Resume1.tpl_skills, Resume1.tpl_strengths;
    rewrite H; cbn [tpl_if app];
    apply occurs_first_piece; vm_compute; reflexivity.
Qed.

Lemma pieces_absent (sec : section) (d : ResumeRecord) :
  present sec d = false -> pieces sec d = [] /\ pieces1 sec d = [].
Proof.
  destruct sec; cbn [present pieces pieces1]; intros H;
    unfold Resume.tpl_summary, Resume.tpl_experience, Resume.tpl_education,
      Resume.tpl_projects, Resume.tpl_skills, Resume.tpl_strengths,
      Resume1.tpl_summary, Resume1.tpl_experience, Resume1.tpl_education,
      Resume1.tpl_projects, Resume1.tpl_skills, Resume1.tpl_strengths;
    rewrite H; split; reflexivity.
Qed.

Lemma heading_shown (sec : section) (d : ResumeRecord) (css : str)
      (now : Resume.datetime) :
  present sec d = true ->
  occurs (heading sec) (Resume.render_html d css now)
  /\ occurs (heading sec) (Resume1.tpl_render d).
Proof.
  intros H. split.
  - eapply infix_trans; [apply heading_in_pieces, H|].
    apply infix_concat, section_in_template.
  - eapply infix_trans; [apply heading_in_pieces1, H|].
    apply infix_concat, section_in_template1.
Qed.

Lemma heading_hidden (sec : section) (d : ResumeRecord) (css : str)
      (now : Resume.datetime) :
  plain_record d -> plain css -> present sec d = false ->
  ~ occurs (heading sec) (Resume.render_html d css now).
Proof.
  intros Hd Hc Hs. apply clean_absent; [apply heading_not_nil|].
  apply clean_TEMPLATE; auto using plain_strftime.
Qed.

Lemma heading_hidden1 (sec : section) (d : ResumeRecord) :
  plain_record d -> present sec d = false ->
  ~ occurs (heading sec) (Resume1.tpl_render d).
Proof.
  intros Hd Hs. apply clean_absent; [apply heading_not_nil|].
  apply clean_TEMPLATE1; auto using plain_CSS1.
Qed.

(* ================================================================== *)
(** * Lemmas on the prompt collector *)
(* ================================================================== *)

(** ** White space *)

Lemma lstrip_nil_iff (s : str) : lstrip s = [] <-> forallb isspace s = true.
Proof.
  induction s as [|c s IH]; simpl; [tauto|].
  destruct (isspace c); simpl; [exact IH|]. split; discriminate.
Qed.

Lemma lstrip_head (s r : str) (c : char) : lstrip s = c :: r -> isspace c = false.
Proof.
  induction s as [|a s IH]; simpl; [discriminate|].
  destruct (isspace a) eqn:E; [exact IH|]. intros H. injection H as <- _. exact E.
Qed.

Lemma lstrip_In (s : str) (c : char) : In c (lstrip s) -> In c s.
Proof.
  induction s as [|a s IH]; simpl; [tauto|].
  destruct (isspace a); [right; auto | trivial].
Qed.

Lemma strip_In (s : str) (c : char) : In c (strip s) -> In c s.
Proof.
  unfold strip, rstrip. intros H. apply in_rev, lstrip_In in H.
  apply in_rev in H. now apply lstrip_In.
Qed.

Lemma strip_has_text (s : str) : strip s <> [] -> has_text (strip s).
Proof.
  unfold strip, rstrip. destruct (lstrip (rev (lstrip s))) as [|c r] eqn:E.
  - intros H. now elim H.
  - intros _. exists c. split.
    + apply in_rev. rewrite rev_involutive. now left.
    + now apply lstrip_head in E.
Qed.

Lemma blank_false_iff (s : str) : blank s = false <-> has_text s.
Proof.
  unfold blank. rewrite negb_false_iff, truthy_true. split.
  - intros H. destruct (strip_has_text s H) as (c & Hc & Hs).
    exists c. split; [now apply strip_In | exact Hs].
  - intros (c & Hc & Hs) H. unfold strip, rstrip in H.
    assert (lstrip (rev (lstrip s)) = []) as H1
      by (rewrite <- (rev_involutive (lstrip _)), H; reflexivity).
    apply lstrip_nil_iff in H1. rewrite forallb_forall in H1.
    destruct (lstrip s) as [|a r] eqn:E.
    + apply lstrip_nil_iff in E. rewrite forallb_forall in E.
      apply E in Hc. congruence.
    + pose proof (lstrip_head _ _ _ E) as Ha.
      rewrite (H1 a) in Ha; [discriminate|]. apply -> in_rev. now left.
Qed.

Lemma blank_true_iff (s : str) : blank s = true <-> forallb isspace s = true.
Proof.
  split.
  - intros H. apply forallb_forall. intros c Hc.
    destruct (isspace c) eqn:E; [reflexivity|].
    assert (blank s = false) by (apply blank_false_iff; now exists c).
    congruence.
  - intros H. destruct (blank s) eqn:E; [reflexivity|].
    apply blank_false_iff in E as (c & Hc & Hs).
    rewrite forallb_forall in H. apply H in Hc. congruence.
Qed.

Lemma has_text_app_l (a b : str) : has_text a -> has_text (a ++ b).
Proof.
  intros (c & Hc & Hs). exists c. split; [apply in_or_app; now left | exact Hs].
Qed.

Lemma stored_line_has_text (r : str) : blank r = false -> has_text (strip r).
Proof.
  unfold blank. rewrite negb_false_iff, truthy_true. apply strip_has_text.
Qed.

(** ** Computations *)

Lemma bind_Ok {A B} (c : Resume.M A) (k : A -> Resume.M B) inp b rest :
  Resume.bind c k inp = Resume.Ok b rest ->
  exists a mid, c inp = Resume.Ok a mid /\ k a mid = Resume.Ok b rest.
Proof.
  unfold Resume.bind. destruct (c inp) as [a mid| |]; try discriminate.
  intros H. now exists a, mid.
Qed.

Lemma input_Ok inp l rest :
  Resume.input inp = Resume.Ok l rest -> inp = l :: rest.
Proof. destruct inp; simpl; intros H; [discriminate | now injection H as -> ->]. Qed.

Lemma ret_Ok {A} (a b : A) inp rest :
  Resume.ret a inp = Resume.Ok b rest -> a = b /\ inp = rest.
Proof. unfold Resume.ret. intros H. now injection H as -> ->. Qed.

(** Takes apart the run of a computation that returned. *)
Ltac run_inv :=
  repeat match goal with
    | H : Resume.bind _ _ _ = Resume.Ok _ _ |- _ =>
        apply bind_Ok in H as (? & ? & ? & H)
    | H : Resume.input _ = Resume.Ok _ _ |- _ => apply input_Ok in H; subst
    | H : Resume.ret _ _ = Resume.Ok _ _ |- _ =>
        apply ret_Ok in H as [? ?]; subst
    end.

Lemma consumes_ret {A} (a : A) : consumes (Resume.ret a) 0.
Proof. intros inp. simpl. lia. Qed.

Lemma consumes_input : consumes Resume.input 1.
Proof. intros [|l rest]; simpl; [trivial | lia]. Qed.

Lemma consumes_0 {A} (c : Resume.M A) : consumes c 1 -> consumes c 0.
Proof. intros H inp. specialize (H inp). destruct (c inp); [lia | trivial | trivial]. Qed.

Lemma consumes_bind {A B} (c : Resume.M A) (k : A -> Resume.M B) (n : nat) :
  consumes c n -> (forall a, consumes (k a) 0) -> consumes (Resume.bind c k) n.
Proof.
  intros Hc Hk inp. unfold Resume.bind. specialize (Hc inp).
  destruct (c inp) as [a mid| |]; [|trivial|trivial].
  specialize (Hk a mid). destruct (k a mid); [lia | trivial | trivial].
Qed.

Lemma loop_consumes {St} (body : St -> Resume.M (Resume.step St)) :
  (forall s, consumes (body s) 1) ->
  forall fuel s inp, length inp < fuel ->
    match Resume.loop fuel body s inp with
    | Resume.Ok _ rest => length rest + 1 <= length inp
    | Resume.EOFError => True
    | Resume.OutOfFuel => False
    end.
Proof.
  intros Hb. induction fuel as [|fuel IH]; intros s inp Hf; [lia|].
  simpl. specialize (Hb s inp).
  destruct (body s inp) as [[s'|s'] rest| |]; [|exact Hb|trivial|trivial].
  specialize (IH s' rest).
  destruct (Resume.loop fuel body s' rest); [lia | trivial | apply IH; lia].
Qed.

(** A loop that reads a line in every round returns or meets the end of
    input: its fuel is enough. *)
Lemma while_true_consumes {St} (body : St -> Resume.M (Resume.step St)) (s : St) :
  (forall s, consumes (body s) 1) -> consumes (Resume.while_true body s) 1.
Proof.
  intros Hb inp. unfold Resume.while_true.
  apply (loop_consumes body Hb). lia.
Qed.

(** What holds of the state before the loop and is kept by every round
    holds of the state the loop returns. *)
Lemma while_true_invariant {St} (P : St -> Prop)
      (body : St -> Resume.M (Resume.step St)) :
  (forall s inp r rest,
      P s -> body s inp = Resume.Ok r rest -> P (state_of r)) ->
  forall s inp s' rest,
    P s -> Resume.while_true body s inp = Resume.Ok s' rest -> P s'.
Proof.
  intros Hb s inp. unfold Resume.while_true.
  generalize (S (length inp)) as fuel. intros fuel. revert s inp.
  induction fuel as [|fuel IH]; intros s inp s' rest Hs; simpl; [discriminate|].
  destruct (body s inp) as [[s1|s1] rest1| |] eqn:E; try discriminate.
  - apply IH. exact (Hb _ _ _ _ Hs E).
  - intros H. injection H as <- <-. exact (Hb _ _ _ _ Hs E).
Qed.

(** ** The loops read a line in every round *)

Ltac reads_lines :=
  repeat first
    [ apply consumes_ret
    | apply consumes_input
    | apply consumes_0; apply consumes_input
    | apply consumes_bind; [|intros ?]
    | match goal with |- consumes (if ?c then _ else _) _ => destruct c end ].

Lemma bullet_round_consumes lines : consumes (Resume.bullet_round lines) 1.
Proof. unfold Resume.bullet_round. reads_lines. Qed.

Lemma bullet_lines_consumes : consumes Resume.bullet_lines 1.
Proof. apply while_true_consumes, bullet_round_consumes. Qed.

Lemma experience_round_consumes acc : consumes (Resume.experience_round acc) 1.
Proof.
  unfold Resume.experience_round. reads_lines.
  apply consumes_0, bullet_lines_consumes.
Qed.

Lemma education_round_consumes acc : consumes (Resume.education_round acc) 1.
Proof. unfold Resume.education_round. reads_lines. Qed.

Lemma projects_round_consumes acc : consumes (Resume.projects_round acc) 1.
Proof.
  unfold Resume.projects_round. reads_lines.
  apply consumes_0, bullet_lines_consumes.
Qed.

Lemma skills_round_consumes acc : consumes (Resume.skills_round acc) 1.
Proof.
  unfold Resume.skills_round. reads_lines.
  apply consumes_0, bullet_lines_consumes.
Qed.

(** [interactive_fill] returns a record or meets the end of input: no
    loop of it runs out of fuel. *)
Lemma interactive_fill_returns (inp : list str) :
  Resume.interactive_fill inp <> Resume.OutOfFuel.
Proof.
  assert (consumes Resume.interactive_fill 1) as H.
  { unfold Resume.interactive_fill, Resume.experience_loop,
      Resume.education_loop, Resume.projects_loop, Resume.skills_loop.
    reads_lines; apply consumes_0.
    - apply while_true_consumes, experience_round_consumes.
    - apply while_true_consumes, education_round_consumes.
    - apply while_true_consumes, projects_round_consumes.
    - apply while_true_consumes, skills_round_consumes.
    - apply bullet_lines_consumes. }
  specialize (H inp). intros E. now rewrite E in H.
Qed.

(** ** The bullet loop *)

Lemma bullet_loop_spec (fuel : nat) (acc : list str) (inp : list str) :
  length inp < fuel ->
  Resume.loop fuel Resume.bullet_round acc inp =
  match until_blank inp with
  | Some (ls, rest) => Resume.Ok (acc ++ map strip ls) rest
  | None => Resume.EOFError
  end.
Proof.
  revert fuel acc. induction inp as [|l inp IH]; intros fuel acc Hf.
  - destruct fuel; [simpl in Hf; lia | reflexivity].
  - destruct fuel as [|fuel]; [simpl in Hf; lia|].
    simpl in Hf. cbn [Resume.loop until_blank].
    unfold Resume.bullet_round at 1. unfold Resume.bind, Resume.input.
    fold (blank l). destruct (blank l).
    + unfold Resume.ret. now rewrite app_nil_r.
    + unfold Resume.ret. rewrite IH by lia.
      destruct (until_blank inp) as [[ls rest]|]; [|reflexivity].
      simpl. now rewrite <- app_assoc.
Qed.

(** The bullet loop stores, stripped and in order, the lines before the
    first blank line, and leaves the lines after it. *)
Lemma bullet_lines_spec (inp : list str) :
  Resume.bullet_lines inp =
  match until_blank inp with
  | Some (ls, rest) => Resume.Ok (map strip ls) rest
  | None => Resume.EOFError
  end.
Proof.
  unfold Resume.bullet_lines, Resume.while_true.
  rewrite bullet_loop_spec by lia. reflexivity.
Qed.

Lemma until_blank_not_blank inp ls rest :
  until_blank inp = Some (ls, rest) -> Forall (fun l => blank l = false) ls.
Proof.
  revert ls rest. induction inp as [|l inp IH]; intros ls rest; simpl;
    [discriminate|].
  destruct (blank l) eqn:E.
  - intros H. injection H as <- _. constructor.
  - destruct (until_blank inp) as [[ls' rest']|]; [|discriminate].
    intros H. injection H as <- _. constructor; [exact E | eauto].
Qed.

Lemma bullet_lines_have_text inp lines rest :
  Resume.bullet_lines inp = Resume.Ok lines rest -> Forall has_text lines.
Proof.
  rewrite bullet_lines_spec.
  destruct (until_blank inp) as [[ls rest']|] eqn:E; [|discriminate].
  intros H. injection H as <- _. apply until_blank_not_blank in E.
  induction E; simpl; constructor; auto using stored_line_has_text.
Qed.

(** ** A blank answer to the first prompt of a group *)

Lemma round_breaks {A} (k : str -> Resume.M (Resume.step (list A)))
      (acc : list A) (line : str) (rest : list str) :
  blank line = true ->
  Resume.bind Resume.input
    (fun x => if negb (truthy (strip x)) then Resume.ret (Resume.Break acc)
              else k x) (line :: rest)
  = Resume.Ok (Resume.Break acc) rest.
Proof. unfold Resume.bind, Resume.input, blank. now intros ->. Qed.

Lemma while_true_breaks {St} (body : St -> Resume.M (Resume.step St))
      (s : St) (inp rest : list str) :
  body s inp = Resume.Ok (Resume.Break s) rest ->
  Resume.while_true body s inp = Resume.Ok s rest.
Proof. unfold Resume.while_true. simpl. now intros ->. Qed.

(** ** Every stored entry has a first field with text *)

Lemma experience_have_text inp l rest :
  Resume.experience_loop inp = Resume.Ok l rest ->
  Forall (fun j => has_text (Job.title j)) l.
Proof.
  apply while_true_invariant; [|constructor].
  intros s inp' r rest' Hs H. unfold Resume.experience_round in H.
  apply bind_Ok in H as (title & mid & H1 & H).
  destruct (negb (truthy (strip title))) eqn:E; run_inv; [exact Hs|].
  simpl. apply Forall_app. split; [exact Hs|]. constructor; [|constructor].
  simpl. now apply blank_false_iff.
Qed.

Lemma education_have_text inp l rest :
  Resume.education_loop inp = Resume.Ok l rest ->
  Forall (fun e => has_text (Edu.degree e)) l.
Proof.
  apply while_true_invariant; [|constructor].
  intros s inp' r rest' Hs H. unfold Resume.education_round in H.
  apply bind_Ok in H as (degree & mid & H1 & H).
  destruct (negb (truthy (strip degree))) eqn:E; run_inv; [exact Hs|].
  simpl. apply Forall_app. split; [exact Hs|]. constructor; [|constructor].
  simpl. now apply blank_false_iff.
Qed.

Lemma projects_have_text inp l rest :
  Resume.projects_loop inp = Resume.Ok l rest ->
  Forall (fun p => has_text (Project.name p)) l.
Proof.
  apply while_true_invariant; [|constructor].
  intros s inp' r rest' Hs H. unfold Resume.projects_round in H.
  apply bind_Ok in H as (pname & mid & H1 & H).
  destruct (negb (truthy (strip pname))) eqn:E; run_inv; [exact Hs|].
  simpl. apply Forall_app. split; [exact Hs|]. constructor; [|constructor].
  simpl. now apply blank_false_iff.
Qed.

Lemma skill_entry_has_text main subskills :
  has_text main -> has_text (Resume.skill_entry main subskills).
Proof.
  unfold Resume.skill_entry. destruct (truthy subskills); [|trivial].
  apply has_text_app_l.
Qed.

Lemma skills_have_text inp l rest :
  Resume.skills_loop inp = Resume.Ok l rest -> Forall has_text l.
Proof.
  apply while_true_invariant; [|constructor].
  intros s inp' r rest' Hs H. unfold Resume.skills_round in H.
  apply bind_Ok in H as (main & mid & H1 & H).
  destruct (negb (truthy (strip main))) eqn:E; run_inv; [exact Hs|].
  simpl. apply Forall_app. split; [exact Hs|]. constructor; [|constructor].
  apply skill_entry_has_text. now apply blank_false_iff.
Qed.

(* ================================================================== *)
(** * Lemmas on the time stamp *)
(* ================================================================== *)

Lemma isdigit_digit (n : N) : isdigit (Resume.digit (n mod 10)) = true.
Proof.
  unfold isdigit, Resume.digit. pose proof (mod10_lt n) as H.
  revert H. generalize (n mod 10)%N. intros m H.
  apply andb_true_iff. split; apply N.leb_le; lia.
Qed.

Lemma strftime_format (now : Resume.datetime) :
  matches "dddd-dd-dd dd:dd UTC" (Resume.strftime now) = true.
Proof.
  unfold Resume.strftime, Resume.pad4, Resume.pad2.
  cbn [app lit matches Ascii.eqb Bool.eqb andb].
  rewrite !isdigit_digit. reflexivity.
Qed.

(** The two digits of a number below 100, and of its tens. *)
Lemma two_digits (n : N) :
  (n <= 99)%N ->
  (10 * (10 * 0 + (48 + n / 10 mod 10 - 48)) + (48 + n mod 10 - 48))%N = n.
Proof.
  intros H.
  assert (n / 10 < 10)%N by (apply N.Div0.div_lt_upper_bound; lia).
  rewrite (N.mod_small (n / 10)) by assumption.
  pose proof (mod10_lt n) as Hm. pose proof (N.Div0.div_mod n 10) as E.
  revert Hm E. generalize (n mod 10)%N (n / 10)%N. intros m q Hm E. lia.
Qed.

Lemma number_pad2 (n : N) : (n <= 99)%N -> number (Resume.pad2 n) = n.
Proof. apply two_digits. Qed.

Lemma number_pad4 (n : N) : (n <= 9999)%N -> number (Resume.pad4 n) = n.
Proof.
  intros H. unfold number, Resume.pad4, Resume.digit. cbn [fold_left].
  assert (n / 100 <= 99)%N as H1.
  { apply N.lt_succ_r. apply N.Div0.div_lt_upper_bound. lia. }
  pose proof (two_digits (n / 100) H1) as E1.
  rewrite !N.Div0.div_div in E1. change (100 * 10)%N with 1000%N in E1.
  pose proof (mod10_lt n) as Hm. pose proof (mod10_lt (n / 10)) as Hm1.
  pose proof (N.Div0.div_mod n 10) as E. pose proof (N.Div0.div_mod (n / 10) 10) as E'.
  rewrite N.Div0.div_div in E'. change (10 * 10)%N with 100%N in E'.
  revert E1 Hm Hm1 E E'.
  generalize (n / 1000 mod 10)%N (n / 100 mod 10)%N (n / 10 mod 10)%N
    (n mod 10)%N.
  intros a b c e. generalize (n / 100)%N (n / 10)%N. intros q100 q10. lia.
Qed.

(* ================================================================== *)
(** * Lemmas on the entries of the two templates *)
(* ================================================================== *)

Lemma py_or_empty (x : str) : py_or x [] = x.
Proof. now destruct x. Qed.

Lemma py_or_Present (job : Job.t) :
  py_or (Job.end_date job) (lit "Present") = shown_end job.
Proof. unfold shown_end. now destruct (Job.end_date job). Qed.

Lemma in_order_section {A} (g : A -> str) (body : A -> list str)
      (l : list A) (L : list str) :
  (truthy l = true -> infix (tpl_for l body) L) ->
  (forall a, In a l -> occurs (g a) (concat (body a))) ->
  in_order (map g l) (concat L).
Proof.
  intros HL Hb. destruct (truthy l) eqn:E.
  - apply in_order_occurs with (concat (tpl_for l body)).
    + now apply in_order_tpl_for.
    + now apply infix_concat, HL.
  - apply truthy_false in E. subst l. exact I.
Qed.

Lemma bullet_in_body (A B r : str) :
  endswith A (lit "<li>") = true -> startswith B (lit "</li>") = true ->
  occurs (li r) (concat [A; r; B]).
Proof.
  intros HA HB. unfold li.
  apply (occurs_eq _ (lit "<li>" ++ concat [r] ++ lit "</li>")).
  - simpl. now rewrite app_nil_r.
  - apply occurs_across with (A := A) (B := B);
      [apply infix_refl | exact HA | exact HB].
Qed.

Ltac bullet_body := apply bullet_in_body; vm_compute; reflexivity.

Section Entries.
Variable job : Job.t.
Variable e : Edu.t.
Variable p : Project.t.

Lemma job_title_in_pieces : occurs (job_title job) (concat (Resume.tpl_job job)).
Proof.
  unfold Resume.tpl_job, job_title.
  find_text (lit "<div class=`title`>")
    [Job.title job; lit " " ++ Resume.emdash ++ lit " "; Job.company job]
    (lit "</div>").
Qed.

Lemma job_dates_in_pieces : occurs (job_dates job) (concat (Resume.tpl_job job)).
Proof.
  unfold Resume.tpl_job, job_dates.
  rewrite py_or_empty, py_or_Present.
  find_text (lit "<div class=`meta`>")
    [Job.start_date job; lit " " ++ Resume.emdash ++ lit " "; shown_end job;
     lit " " ++ Resume.middot ++ lit " "; Job.location job]
    (lit "</div>").
Qed.

Lemma job_bullets_in_pieces :
  in_order (map li (Job.responsibilities job)) (concat (Resume.tpl_job job)).
Proof.
  eapply in_order_section.
  - intros H. unfold Resume.tpl_job. find_infix.
  - intros r _. cbv beta. bullet_body.
Qed.

Lemma edu_title_in_pieces : occurs (edu_title e) (concat (Resume.tpl_edu e)).
Proof.
  unfold Resume.tpl_edu, edu_title.
  find_text (lit "<div class=`title`>")
    [Edu.degree e; lit " " ++ Resume.emdash ++ lit " "; Edu.institution e]
    (lit "</div>").
Qed.

Lemma project_title_in_pieces :
  occurs (project_title p) (concat (Resume.tpl_project p)).
Proof.
  unfold Resume.tpl_project, project_title.
  find_text (lit "<div class=`title`>") [Project.name p] (lit "</div>").
Qed.

Lemma project_bullets_in_pieces :
  in_order (map li (Project.points p)) (concat (Resume.tpl_project p)).
Proof.
  eapply in_order_section.
  - intros H. unfold Resume.tpl_project. find_infix.
  - intros r _. cbv beta. bullet_body.
Qed.

Lemma job_title_in_pieces1 :
  occurs (job_title1 job) (concat (Resume1.tpl_job job)).
Proof.
  unfold Resume1.tpl_job, job_title1.
  find_text (lit "<div class=`title`>") [Job.title job] (lit "</div>").
Qed.

Lemma job_dates_in_pieces1 :
  occurs (job_dates1 job) (concat (Resume1.tpl_job job)).
Proof.
  unfold Resume1.tpl_job, job_dates1. rewrite py_or_Present.
  find_text (lit "<div>")
    [Job.company job; lit " " ++ Resume1.middot ++ lit " ";
     Job.start_date job; lit " " ++ Resume1.emdash ++ lit " "; shown_end job]
    (lit "</div>").
Qed.

Lemma job_bullets_in_pieces1 :
  in_order (map li (Job.responsibilities job)) (concat (Resume1.tpl_job job)).
Proof.
  eapply in_order_section.
  - intros H. unfold Resume1.tpl_job. find_infix.
  - intros r _. cbv beta. bullet_body.
Qed.

Lemma edu_title_in_pieces1 : occurs (edu_title1 e) (concat (Resume1.tpl_edu e)).
Proof.
  unfold Resume1.tpl_edu, edu_title1.
  find_text (lit "<b>") [Edu.degree e] (lit "</b>").
Qed.

Lemma project_title_in_pieces1 :
  occurs (project_title1 p) (concat (Resume1.tpl_project p)).
Proof.
  unfold Resume1.tpl_project, project_title1.
  find_text (lit "<div class=`title`>") [Project.name p] (lit "</div>").
Qed.

Lemma project_bullets_in_pieces1 :
  in_order (map li (Project.points p)) (concat (Resume1.tpl_project p)).
Proof.
  eapply in_order_section.
  - intros H. unfold Resume1.tpl_project. find_infix.
  - intros r _. cbv beta. bullet_body.
Qed.
End Entries.

(* ================================================================== *)
(** * The lists of a record in the output *)
(* ================================================================== *)

Lemma in_order_In (xs : list str) (s x : str) :
  in_order xs s -> In x xs -> occurs x s.
Proof.
  revert s. induction xs as [|y xs IH]; intros s; simpl; [tauto|].
  intros (p & q & -> & Hq) [<-|Hx].
  - now exists p, q.
  - apply infix_app_l, infix_app_l. now apply IH.
Qed.

Section Output.
Variable d : ResumeRecord.
Variable css : str.
Variable now : Resume.datetime.

Lemma job_in_output (job : Job.t) :
  In job (experience d) -> occurs (concat (Resume.tpl_job job))
    (Resume.render_html d css now).
Proof. intros H. now apply infix_concat, job_in_template. Qed.

Lemma project_in_output (p : Project.t) :
  In p (projects d) -> occurs (concat (Resume.tpl_project p))
    (Resume.render_html d css now).
Proof. intros H. now apply infix_concat, project_in_template. Qed.

Lemma job_in_output1 (job : Job.t) :
  In job (experience d) -> occurs (concat (Resume1.tpl_job job))
    (Resume1.tpl_render d).
Proof. intros H. now apply infix_concat, job_in_template1. Qed.

Lemma project_in_output1 (p : Project.t) :
  In p (projects d) -> occurs (concat (Resume1.tpl_project p))
    (Resume1.tpl_render d).
Proof. intros H. now apply infix_concat, project_in_template1. Qed.

Lemma experience_in_order : in_order (map job_title (experience d))
    (Resume.render_html d css now).
Proof.
  apply in_order_section with (body := Resume.tpl_job).
  - intros H. unfold Resume.TEMPLATE, Resume.tpl_experience. find_infix.
  - intros a _. apply job_title_in_pieces.
Qed.

Lemma education_in_order : in_order (map edu_title (education d))
    (Resume.render_html d css now).
Proof.
  apply in_order_section with (body := Resume.tpl_edu).
  - intros H. unfold Resume.TEMPLATE, Resume.tpl_education. find_infix.
  - intros a _. apply edu_title_in_pieces.
Qed.

Lemma projects_in_order : in_order (map project_title (projects d))
    (Resume.render_html d css now).
Proof.
  apply in_order_section with (body := Resume.tpl_project).
  - intros H. unfold Resume.TEMPLATE, Resume.tpl_projects. find_infix.
  - intros a _. apply project_title_in_pieces.
Qed.

Lemma skills_in_order : in_order (map li (skills d))
    (Resume.render_html d css now).
Proof.
  eapply in_order_section.
  - intros H. unfold Resume.TEMPLATE, Resume.tpl_skills. find_infix.
  - intros a _. cbv beta. bullet_body.
Qed.

Lemma strengths_in_order : in_order (map li (strengths d))
    (Resume.render_html d css now).
Proof.
  eapply in_order_section.
  - intros H. unfold Resume.TEMPLATE, Resume.tpl_strengths. find_infix.
  - intros a _. cbv beta. bullet_body.
Qed.

Lemma job_bullets_in_order (job : Job.t) :
  In job (experience d) -> in_order (map li (Job.responsibilities job))
    (Resume.render_html d css now).
Proof.
  intros H. eapply in_order_occurs;
    [apply job_bullets_in_pieces | now apply job_in_output].
Qed.

Lemma project_bullets_in_order (p : Project.t) :
  In p (projects d) -> in_order (map li (Project.points p))
    (Resume.render_html d css now).
Proof.
  intros H. eapply in_order_occurs;
    [apply project_bullets_in_pieces | now apply project_in_output].
Qed.

Lemma experience_in_order1 : in_order (map job_title1 (experience d))
    (Resume1.tpl_render d).
Proof.
  apply in_order_section with (body := Resume1.tpl_job).
  - intros H. unfold Resume1.TEMPLATE, Resume1.tpl_experience. find_infix.
  - intros a _. apply job_title_in_pieces1.
Qed.

Lemma education_in_order1 : in_order (map edu_title1 (education d))
    (Resume1.tpl_render d).
Proof.
  apply in_order_section with (body := Resume1.tpl_edu).
  - intros H. unfold Resume1.TEMPLATE, Resume1.tpl_education. find_infix.
  - intros a _. apply edu_title_in_pieces1.
Qed.

Lemma projects_in_order1 : in_order (map project_title1 (projects d))
    (Resume1.tpl_render d).
Proof.
  apply in_order_section with (body := Resume1.tpl_project).
  - intros H. unfold Resume1.TEMPLATE, Resume1.tpl_projects. find_infix.
  - intros a _. apply project_title_in_pieces1.
Qed.

Lemma skills_in_order1 : in_order (map li (skills d)) (Resume1.tpl_render d).
Proof.
  eapply in_order_section.
  - intros H. unfold Resume1.TEMPLATE, Resume1.tpl_skills. find_infix.
  - intros a _. cbv beta. bullet_body.
Qed.

Lemma strengths_in_order1 : in_order (map li (strengths d))
    (Resume1.tpl_render d).
Proof.
  eapply in_order_section.
  - intros H. unfold Resume1.TEMPLATE, Resume1.tpl_strengths. find_infix.
  - intros a _. cbv beta. bullet_body.
Qed.

Lemma job_bullets_in_order1 (job : Job.t) :
  In job (experience d) -> in_order (map li (Job.responsibilities job))
    (Resume1.tpl_render d).
Proof.
  intros H. eapply in_order_occurs;
    [apply job_bullets_in_pieces1 | now apply job_in_output1].
Qed.

Lemma project_bullets_in_order1 (p : Project.t) :
  In p (projects d) -> in_order (map li (Project.points p))
    (Resume1.tpl_render d).
Proof.
  intros H. eapply in_order_occurs;
    [apply project_bullets_in_pieces1 | now apply project_in_output1].
Qed.
End Output.

(* ================================================================== *)
(** * The claims *)
(* ================================================================== *)

(** ** C1: escaping of the record's texts *)

(** C1, as stated, fails: for a record whose name is the three characters
    less-than, ampersand and double quote, both templates output them as
    they are, inside the [title] element,
    and the output holds none of the entities [&lt;], [&amp;], [&quot;]. *)
Lemma C1_markup_not_escaped :
  (occurs (lit "<title><&` - Resume</title>")
          (Resume.render_html markup_name Resume.CSS noon)
   /\ ~ occurs (lit "&lt;") (Resume.render_html markup_name Resume.CSS noon)
   /\ ~ occurs (lit "&amp;") (Resume.render_html markup_name Resume.CSS noon)
   /\ ~ occurs (lit "&quot;") (Resume.render_html markup_name Resume.CSS noon))
  /\ (occurs (lit "<title><&` - Resume</title>") (Resume1.tpl_render markup_name)
      /\ ~ occurs (lit "&lt;") (Resume1.tpl_render markup_name)
      /\ ~ occurs (lit "&amp;") (Resume1.tpl_render markup_name)
      /\ ~ occurs (lit "&quot;") (Resume1.tpl_render markup_name)).
Proof.
  repeat split;
    first [ apply occursb_true; vm_compute; reflexivity
          | apply occursb_false; vm_compute; reflexivity ].
Qed.

(** C1, amended: both templates output the texts of the record exactly as
    they are stored, whatever characters they hold: the name inside the
    [title] element, a non-empty summary inside its element, and every
    bullet, skill and strength inside its [li] element. *)
Theorem C1_texts_are_output_as_stored
        (d : ResumeRecord) (css : str) (now : Resume.datetime) :
  (occurs (lit "<title>" ++ name d ++ lit " - Resume</title>")
          (Resume.render_html d css now)
   /\ (summary d <> [] ->
       occurs (lit "<div class=`summary`>" ++ summary d ++ lit "</div>")
              (Resume.render_html d css now))
   /\ (forall job r, In job (experience d) -> In r (Job.responsibilities job) ->
       occurs (li r) (Resume.render_html d css now))
   /\ (forall p pt, In p (projects d) -> In pt (Project.points p) ->
       occurs (li pt) (Resume.render_html d css now))
   /\ (forall s, In s (skills d) \/ In s (strengths d) ->
       occurs (li s) (Resume.render_html d css now)))
  /\ (occurs (lit "<title>" ++ name d ++ lit " - Resume</title>")
             (Resume1.tpl_render d)
      /\ (summary d <> [] ->
          occurs (lit "<p>" ++ summary d ++ lit "</p>") (Resume1.tpl_render d))
      /\ (forall job r, In job (experience d) -> In r (Job.responsibilities job) ->
          occurs (li r) (Resume1.tpl_render d))
      /\ (forall p pt, In p (projects d) -> In pt (Project.points p) ->
          occurs (li pt) (Resume1.tpl_render d))
      /\ (forall s, In s (skills d) \/ In s (strengths d) ->
          occurs (li s) (Resume1.tpl_render d))).
Proof.
  split; repeat apply conj.
  - unfold Resume.render_html, render, Resume.TEMPLATE.
    find_text (lit "<title>") [name d] (lit " - Resume</title>").
  - intros H. unfold Resume.render_html, render, Resume.TEMPLATE,
      Resume.tpl_summary.
    find_text (lit "<div class=`summary`>") [summary d] (lit "</div>").
  - intros job r Hj Hr.
    apply in_order_In with (map li (Job.responsibilities job));
      [now apply job_bullets_in_order | now apply in_map].
  - intros p pt Hp Hpt.
    apply in_order_In with (map li (Project.points p));
      [now apply project_bullets_in_order | now apply in_map].
  - intros s [Hs|Hs].
    + apply in_order_In with (map li (skills d));
        [apply skills_in_order | now apply in_map].
    + apply in_order_In with (map li (strengths d));
        [apply strengths_in_order | now apply in_map].
  - unfold Resume1.tpl_render, render, Resume1.TEMPLATE.
    find_text (lit "<title>") [name d] (lit " - Resume</title>").
  - intros H. unfold Resume1.tpl_render, render, Resume1.TEMPLATE,
      Resume1.tpl_summary.
    find_text (lit "<p>") [summary d] (lit "</p>").
  - intros job r Hj Hr.
    apply in_order_In with (map li (Job.responsibilities job));
      [now apply job_bullets_in_order1 | now apply in_map].
  - intros p pt Hp Hpt.
    apply in_order_In with (map li (Project.points p));
      [now apply project_bullets_in_order1 | now apply in_map].
  - intros s [Hs|Hs].
    + apply in_order_In with (map li (skills d));
        [apply skills_in_order1 | now apply in_map].
    + apply in_order_In with (map li (strengths d));
        [apply strengths_in_order1 | now apply in_map].
Qed.

(** The amended C1 at the record whose name is the three characters, and
    at a record with a job. *)
Lemma C1_texts_are_output_as_stored_witness :
  occurs (lit "<title>" ++ lit "<&`" ++ lit " - Resume</title>")
         (Resume.render_html markup_name Resume.CSS noon)
  /\ occurs (li (lit "Built X")) (Resume1.tpl_render jane).
Proof.
  split.
  - exact (proj1 (proj1 (C1_texts_are_output_as_stored markup_name Resume.CSS noon))).
  - apply (proj1 (proj2 (proj2 (proj2
             (C1_texts_are_output_as_stored jane Resume.CSS noon)))) engineer).
    + simpl. left. reflexivity.
    + simpl. left. reflexivity.
Defined.

(** ** The body of a section in the two templates *)

Lemma in_order_app (xs ys : list str) (s t : str) :
  in_order xs s -> in_order ys t -> in_order (xs ++ ys) (s ++ t).
Proof.
  revert s. induction xs as [|x xs IH]; intros s; simpl.
  - intros _ H. now apply in_order_app_l.
  - intros (p & q & -> & Hq) H. exists p, (q ++ t). split.
    + now rewrite <- !app_assoc.
    + now apply IH.
Qed.

Lemma in_order_cons_app (x : str) (xs : list str) (s t : str) :
  occurs x s -> in_order xs t -> in_order (x :: xs) (s ++ t).
Proof.
  intros (p & q & ->) H. exists p, (q ++ t). split.
  - now rewrite <- !app_assoc.
  - now apply in_order_app_l.
Qed.

Lemma in_order_one (x s : str) : occurs x s -> in_order [x] s.
Proof. intros (p & q & ->). exists p, q. now split. Qed.

(** Two texts with the text [g] between them. *)
Lemma in_order_two (x g y s : str) :
  occurs (x ++ g ++ y) s -> in_order [x; y] s.
Proof.
  intros (p & q & ->). exists p, (g ++ y ++ q). split.
  - now rewrite <- !app_assoc.
  - exists g, q. now split.
Qed.

(** A loop outputs the items of its entries entry by entry. *)
Lemma in_order_flat_for {A} (g body : A -> list str) (l : list A) :
  (forall a, In a l -> in_order (g a) (concat (body a))) ->
  in_order (flat_map g l) (concat (tpl_for l body)).
Proof.
  unfold tpl_for. induction l as [|a l IH]; intros H; simpl; [trivial|].
  rewrite concat_app. apply in_order_app.
  - apply H. now left.
  - apply IH. intros a' Ha'. apply H. now right.
Qed.

Lemma shown_if_in_block (x a b : str) :
  in_order (shown_if x (a ++ x ++ b)) (concat (tpl_if (truthy x) [a; x; b])).
Proof.
  unfold shown_if. destruct (truthy x); [|exact I].
  apply in_order_one. exists [], []. cbn [tpl_if concat app].
  now rewrite ?app_nil_r, <- ?app_assoc.
Qed.

Section Items.
Variable job : Job.t.
Variable e : Edu.t.
Variable p : Project.t.

Lemma job_items_in_pieces :
  in_order (job_items job) (concat (Resume.tpl_job job)).
Proof.
  unfold Resume.tpl_job, job_items. rewrite concat_app.
  apply in_order_app.
  - apply in_order_two with (g := 10%N :: lit "        ").
    unfold job_title, job_dates. rewrite py_or_empty, py_or_Present.
    find_text (lit "<div class=`title`>")
      [Job.title job; lit " " ++ Resume.emdash ++ lit " "; Job.company job;
       lit "</div>
        <div class=`meta`>";
       Job.start_date job; lit " " ++ Resume.emdash ++ lit " ";
       shown_end job; lit " " ++ Resume.middot ++ lit " "; Job.location job]
      (lit "</div>").
  - eapply in_order_section.
    + intros H. find_infix.
    + intros r _. cbv beta. bullet_body.
Qed.

Lemma edu_items_in_pieces :
  in_order (edu_items e) (concat (Resume.tpl_edu e)).
Proof.
  unfold Resume.tpl_edu, edu_items. rewrite !concat_app.
  apply in_order_app.
  - apply in_order_two with (g := 10%N :: lit "        ").
    unfold edu_title, edu_dates. rewrite !py_or_empty.
    find_text (lit "<div class=`title`>")
      [Edu.degree e; lit " " ++ Resume.emdash ++ lit " "; Edu.institution e;
       lit "</div>
        <div class=`meta`>";
       Edu.start_date e; lit " " ++ Resume.emdash ++ lit " ";
       Edu.end_date e; lit " " ++ Resume.middot ++ lit " "; Edu.location e]
      (lit "</div>").
  - apply in_order_app_r, shown_if_in_block.
Qed.

Lemma project_items_in_pieces :
  in_order (project_items p) (concat (Resume.tpl_project p)).
Proof.
  unfold Resume.tpl_project, project_items. rewrite !concat_app.
  apply in_order_app; [|apply in_order_app; [|apply in_order_app_l, in_order_app]].
  - apply in_order_one. unfold project_title.
    find_text (lit "<div class=`title`>") [Project.name p] (lit "</div>").
  - apply shown_if_in_block.
  - apply shown_if_in_block.
  - apply in_order_app_l, in_order_app_r.
    eapply in_order_section.
    + intros H. find_infix.
    + intros r _. cbv beta. bullet_body.
Qed.

Lemma job_items_in_pieces1 :
  in_order (job_items1 job) (concat (Resume1.tpl_job job)).
Proof.
  unfold Resume1.tpl_job, job_items1. rewrite !concat_app.
  apply in_order_app.
  - apply in_order_two with (g := 10%N :: lit "        ").
    unfold job_title1, job_dates1. rewrite py_or_Present.
    find_text (lit "<div class=`title`>")
      [Job.title job;
       lit "</div>
        <div>";
       Job.company job; lit " " ++ Resume1.middot ++ lit " ";
       Job.start_date job; lit " " ++ Resume1.emdash ++ lit " ";
       shown_end job]
      (lit "</div>").
  - apply in_order_app_r, in_order_tpl_for.
    intros r _. cbv beta. bullet_body.
Qed.

Lemma edu_items_in_pieces1 :
  in_order (edu_items1 e) (concat (Resume1.tpl_edu e)).
Proof.
  unfold Resume1.tpl_edu, edu_items1.
  apply in_order_two with (g := []).
  unfold edu_title1, edu_dates1.
  find_text (lit "<b>")
    [Edu.degree e; lit "</b><br>"; Edu.institution e; lit "<br>";
     Edu.start_date e; lit " - "; Edu.end_date e]
    (lit "</div>").
Qed.

Lemma project_items_in_pieces1 :
  in_order (project_items1 p) (concat (Resume1.tpl_project p)).
Proof.
  unfold Resume1.tpl_project, project_items1. rewrite !concat_app.
  apply in_order_app; [|apply in_order_app].
  - apply in_order_one. unfold project_title1.
    find_text (lit "<div class=`title`>") [Project.name p] (lit "</div>").
  - apply shown_if_in_block.
  - apply in_order_app_l, in_order_app_r, in_order_tpl_for.
    intros r _. cbv beta. bullet_body.
Qed.
End Items.

(** The block of a section whose field is not empty holds the heading
    and, after it, the body. *)
Lemma body_in_pieces (sec : section) (d : ResumeRecord) :
  present sec d = true ->
  in_order (heading sec :: body sec d) (concat (pieces sec d)).
Proof.
  intros H. destruct sec; cbn [present] in H; cbn [pieces body heading].
  - unfold Resume.tpl_summary. rewrite tpl_if_true by assumption.
    apply in_order_two with (g := 10%N :: lit "      ").
    find_text (lit "<h2>Summary</h2>
      <div class=`summary`>") [summary d] (lit "</div>").
  - unfold Resume.tpl_experience. rewrite tpl_if_true by assumption.
    rewrite !concat_app. apply in_order_cons_app.
    + apply occursb_true. vm_compute. reflexivity.
    + apply in_order_app_r, in_order_flat_for.
      intros a _. apply job_items_in_pieces.
  - unfold Resume.tpl_education. rewrite tpl_if_true by assumption.
    rewrite !concat_app. apply in_order_cons_app.
    + apply occursb_true. vm_compute. reflexivity.
    + apply in_order_app_r, in_order_flat_for.
      intros a _. apply edu_items_in_pieces.
  - unfold Resume.tpl_projects. rewrite tpl_if_true by assumption.
    rewrite !concat_app. apply in_order_cons_app.
    + apply occursb_true. vm_compute. reflexivity.
    + apply in_order_app_r, in_order_flat_for.
      intros a _. apply project_items_in_pieces.
  - unfold Resume.tpl_skills. rewrite tpl_if_true by assumption.
    rewrite !concat_app. apply in_order_cons_app.
    + apply occursb_true. vm_compute. reflexivity.
    + apply in_order_app_r, in_order_tpl_for.
      intros a _. cbv beta. bullet_body.
  - unfold Resume.tpl_strengths. rewrite tpl_if_true by assumption.
    rewrite !concat_app. apply in_order_cons_app.
    + apply occursb_true. vm_compute. reflexivity.
    + apply in_order_app_r, in_order_tpl_for.
      intros a _. cbv beta. bullet_body.
Qed.

Lemma body_in_pieces1 (sec : section) (d : ResumeRecord) :
  present sec d = true ->
  in_order (heading sec :: body1 sec d) (concat (pieces1 sec d)).
Proof.
  intros H. destruct sec; cbn [present] in H; cbn [pieces1 body1 heading].
  - unfold Resume1.tpl_summary. rewrite tpl_if_true by assumption.
    apply in_order_two with (g := 10%N :: lit "    ").
    find_text (lit "<h2>Summary</h2>
    <p>") [summary d] (lit "</p>").
  - unfold Resume1.tpl_experience. rewrite tpl_if_true by assumption.
    rewrite !concat_app. apply in_order_cons_app.
    + apply occursb_true. vm_compute. reflexivity.
    + apply in_order_app_r, in_order_flat_for.
      intros a _. apply job_items_in_pieces1.
  - unfold Resume1.tpl_education. rewrite tpl_if_true by assumption.
    rewrite !concat_app. apply in_order_cons_app.
    + apply occursb_true. vm_compute. reflexivity.
    + apply in_order_app_r, in_order_flat_for.
      intros a _. apply edu_items_in_pieces1.
  - unfold Resume1.tpl_projects. rewrite tpl_if_true by assumption.
    rewrite !concat_app. apply in_order_cons_app.
    + apply occursb_true. vm_compute. reflexivity.
    + apply in_order_app_r, in_order_flat_for.
      intros a _. apply project_items_in_pieces1.
  - unfold Resume1.tpl_skills. rewrite tpl_if_true by assumption.
    rewrite !concat_app. apply in_order_cons_app.
    + apply occursb_true. vm_compute. reflexivity.
    + apply in_order_app_r, in_order_tpl_for.
      intros a _. cbv beta. bullet_body.
  - unfold Resume1.tpl_strengths. rewrite tpl_if_true by assumption.
    rewrite !concat_app. apply in_order_cons_app.
    + apply occursb_true. vm_compute. reflexivity.
    + apply in_order_app_r, in_order_tpl_for.
      intros a _. cbv beta. bullet_body.
Qed.

(** The documents for a record with a name only. *)
Lemma render_only_name (n css : str) (now : Resume.datetime) :
  Resume.render_html (only_name n) css now
  = minimal_document n css (Resume.strftime now).
Proof.
  unfold Resume.render_html, render, Resume.TEMPLATE, minimal_document,
    only_name.
  generalize (Resume.strftime now). intros g. vm_compute. reflexivity.
Qed.

Lemma tpl_render_only_name (n : str) :
  Resume1.tpl_render (only_name n) = minimal_document1 n Resume1.CSS.
Proof.
  unfold Resume1.tpl_render, render, Resume1.TEMPLATE, minimal_document1,
    only_name.
  generalize Resume1.CSS. intros css. vm_compute. reflexivity.
Qed.

(** ** C2: a section is shown if and only if its field is not empty *)

Lemma plain_jane : plain_record jane.
Proof.
  unfold plain_record, jane, engineer. cbn.
  repeat first
    [ split
    | apply Forall_nil
    | apply Forall_cons
    | apply plain_forallb; vm_compute; reflexivity ].
Qed.

(** C2: in both templates each of the six optional sections contributes
    its block.  When the field of the section is not empty the block, and
    with it the output, holds the heading of the section and after it the
    body: the summary in its element, every entry of the group with its
    title line, its dates and its list elements, every skill and strength
    as a list element, in the order of the record.  When the field is
    empty the block is nothing at all (no heading, no empty body), and in
    the output for a record whose texts hold no tag of their own the
    heading is nowhere to be found; for the record with a name only, both
    outputs are the fixed text of the template around the name and the
    style sheet (and the time stamp), character by character. *)
Theorem C2_section_shown_iff_field_nonempty
        (sec : section) (d : ResumeRecord) (n css : str)
        (now : Resume.datetime) :
  (occurs (concat (pieces sec d)) (Resume.render_html d css now)
   /\ occurs (concat (pieces1 sec d)) (Resume1.tpl_render d))
  /\ (present sec d = true ->
      occurs (heading sec) (concat (pieces sec d))
      /\ occurs (heading sec) (concat (pieces1 sec d))
      /\ occurs (heading sec) (Resume.render_html d css now)
      /\ occurs (heading sec) (Resume1.tpl_render d))
  /\ (present sec d = true ->
      in_order (heading sec :: body sec d) (concat (pieces sec d))
      /\ in_order (heading sec :: body1 sec d) (concat (pieces1 sec d))
      /\ in_order (heading sec :: body sec d) (Resume.render_html d css now)
      /\ in_order (heading sec :: body1 sec d) (Resume1.tpl_render d))
  /\ (present sec d = false ->
      pieces sec d = [] /\ pieces1 sec d = []
      /\ (plain_record d ->
          (plain css -> ~ occurs (heading sec) (Resume.render_html d css now))
          /\ ~ occurs (heading sec) (Resume1.tpl_render d)))
  /\ (present sec (only_name n) = false
      /\ Resume.render_html (only_name n) css now
         = minimal_document n css (Resume.strftime now)
      /\ Resume1.tpl_render (only_name n) = minimal_document1 n Resume1.CSS).
Proof.
  assert (occurs (concat (pieces sec d)) (Resume.render_html d css now)) as Hp
    by apply infix_concat, section_in_template.
  assert (occurs (concat (pieces1 sec d)) (Resume1.tpl_render d)) as Hp1
    by apply infix_concat, section_in_template1.
  split; [now split|].
  split; [|split; [|split; [|split; [|split]]]].
  - intros H. destruct (heading_shown sec d css now H) as [H0 H1].
    auto using heading_in_pieces, heading_in_pieces1.
  - intros H. pose proof (body_in_pieces sec d H) as B.
    pose proof (body_in_pieces1 sec d H) as B1.
    repeat split; trivial; eapply in_order_occurs; eassumption.
  - intros H. destruct (pieces_absent sec d H) as [H0 H1].
    repeat split; trivial.
    + intros Hc. now apply heading_hidden.
    + now apply heading_hidden1.
  - now destruct sec.
  - apply render_only_name.
  - apply tpl_render_only_name.
Qed.

(** C2 at a record with one job, one skill and no summary. *)
Lemma C2_section_shown_iff_field_nonempty_witness :
  occurs (heading Skills) (Resume.render_html jane Resume.CSS noon)
  /\ in_order [lit "<h2>Skills</h2>"; lit "<li>Languages: Go, Rust</li>"]
       (Resume.render_html jane Resume.CSS noon)
  /\ in_order [lit "<h2>Experience</h2>";
               lit "<div class=`title`>Engineer</div>";
               lit "<div>Acme " ++ Resume1.middot ++ lit " 2020 "
               ++ Resume1.emdash ++ lit " Present</div>";
               lit "<li>Built X</li>"; lit "<li>Shipped Y</li>"]
       (Resume1.tpl_render jane)
  /\ ~ occurs (heading Summary) (Resume.render_html jane Resume.CSS noon)
  /\ ~ occurs (heading Summary) (Resume1.tpl_render jane).
Proof.
  split; [|split; [|split; [|split]]].
  - apply (proj1 (proj2
             (C2_section_shown_iff_field_nonempty Skills jane [] Resume.CSS
                noon))).
    reflexivity.
  - apply (proj1 (proj2 (proj2
             (C2_section_shown_iff_field_nonempty Skills jane [] Resume.CSS
                noon)))).
    reflexivity.
  - apply (proj1 (proj2 (proj2
             (C2_section_shown_iff_field_nonempty Experience jane []
                Resume.CSS noon)))).
    reflexivity.
  - apply (proj1 (proj2 (proj2 (proj2
             (C2_section_shown_iff_field_nonempty Summary jane [] Resume.CSS
                noon)))));
      [reflexivity | exact plain_jane | exact plain_CSS].
  - apply (proj1 (proj2 (proj2 (proj2
             (C2_section_shown_iff_field_nonempty Summary jane [] Resume.CSS
                noon)))));
      [reflexivity | exact plain_jane].
Defined.

(** ** C3: white space only *)

(** C3, as stated, fails: a summary and an e-mail address of blanks only
    are shown by both templates, under the Summary heading and in the
    contact block. *)
Lemma C3_blank_summary_is_shown :
  blank (summary blank_summary) = true /\ blank (email blank_summary) = true
  /\ occurs (lit "<h2>Summary</h2>")
            (Resume.render_html blank_summary Resume.CSS noon)
  /\ occurs (lit "<div class=`summary`>   </div>")
            (Resume.render_html blank_summary Resume.CSS noon)
  /\ occurs (lit " <br>") (Resume.render_html blank_summary Resume.CSS noon)
  /\ occurs (lit "<h2>Summary</h2>") (Resume1.tpl_render blank_summary)
  /\ occurs (lit "<p>   </p>") (Resume1.tpl_render blank_summary)
  /\ occurs (lit "<div> </div>") (Resume1.tpl_render blank_summary).
Proof.
  repeat split; try (apply occursb_true); vm_compute; reflexivity.
Qed.

(** C3, amended: the templates decide by emptiness alone.  The summary,
    the tagline and every contact field is shown as it is when it is not
    the empty string, also when it holds white space only; the empty
    string is what counts as absent.  The prompt collector stores an
    answer of white space only to its summary prompt as the empty string,
    so the summary of its records is empty or holds text. *)
Theorem C3_visibility_is_decided_by_emptiness
        (d : ResumeRecord) (css : str) (now : Resume.datetime) :
  (summary d <> [] ->
   occurs (heading Summary) (Resume.render_html d css now)
   /\ occurs (lit "<div class=`summary`>" ++ summary d ++ lit "</div>")
             (Resume.render_html d css now)
   /\ occurs (heading Summary) (Resume1.tpl_render d)
   /\ occurs (lit "<p>" ++ summary d ++ lit "</p>") (Resume1.tpl_render d))
  /\ (tagline d <> [] ->
      occurs (lit "<div>" ++ tagline d ++ lit "</div>")
             (Resume.render_html d css now)
      /\ occurs (lit "<p>" ++ tagline d ++ lit "</p>") (Resume1.tpl_render d))
  /\ (email d <> [] ->
      occurs (email d ++ lit "<br>") (Resume.render_html d css now)
      /\ occurs (lit "<div>" ++ email d ++ lit "</div>") (Resume1.tpl_render d))
  /\ (phone d <> [] ->
      occurs (phone d ++ lit "<br>") (Resume.render_html d css now)
      /\ occurs (lit "<div>" ++ phone d ++ lit "</div>") (Resume1.tpl_render d))
  /\ (location d <> [] ->
      occurs (location d ++ lit "<br>") (Resume.render_html d css now)
      /\ occurs (lit "<div>" ++ location d ++ lit "</div>")
                (Resume1.tpl_render d))
  /\ (linkedin d <> [] ->
      occurs (lit "LinkedIn: " ++ linkedin d ++ lit "<br>")
             (Resume.render_html d css now)
      /\ occurs (lit "<div>LinkedIn: " ++ linkedin d ++ lit "</div>")
                (Resume1.tpl_render d))
  /\ (github d <> [] ->
      occurs (lit "GitHub: " ++ github d) (Resume.render_html d css now)
      /\ occurs (lit "<div>GitHub: " ++ github d ++ lit "</div>")
                (Resume1.tpl_render d))
  /\ (summary d = [] -> pieces Summary d = [] /\ pieces1 Summary d = [])
  /\ (forall inp rest,
        Resume.interactive_fill inp = Resume.Ok d rest ->
        summary d = [] \/ has_text (summary d)).
Proof.
  repeat apply conj.
  - intros H. apply truthy_true in H.
    destruct (heading_shown Summary d css now H) as [H0 H1].
    repeat split; trivial.
    + unfold Resume.render_html, render, Resume.TEMPLATE, Resume.tpl_summary.
      find_text (lit "<div class=`summary`>") [summary d] (lit "</div>").
    + unfold Resume1.tpl_render, render, Resume1.TEMPLATE, Resume1.tpl_summary.
      find_text (lit "<p>") [summary d] (lit "</p>").
  - intros H. split.
    + unfold Resume.render_html, render, Resume.TEMPLATE.
      find_text (lit "<div>") [tagline d] (lit "</div>").
    + unfold Resume1.tpl_render, render, Resume1.TEMPLATE.
      find_text (lit "<p>") [tagline d] (lit "</p>").
  - intros H. split.
    + unfold Resume.render_html, render, Resume.TEMPLATE.
      find_pieces [email d; lit "<br>"].
    + unfold Resume1.tpl_render, render, Resume1.TEMPLATE.
      find_text (lit "<div>") [email d] (lit "</div>").
  - intros H. split.
    + unfold Resume.render_html, render, Resume.TEMPLATE.
      find_pieces [phone d; lit "<br>"].
    + unfold Resume1.tpl_render, render, Resume1.TEMPLATE.
      find_text (lit "<div>") [phone d] (lit "</div>").
  - intros H. split.
    + unfold Resume.render_html, render, Resume.TEMPLATE.
      find_pieces [location d; lit "<br>"].
    + unfold Resume1.tpl_render, render, Resume1.TEMPLATE.
      find_text (lit "<div>") [location d] (lit "</div>").
  - intros H. split.
    + unfold Resume.render_html, render, Resume.TEMPLATE.
      find_pieces [lit "LinkedIn: "; linkedin d; lit "<br>"].
    + unfold Resume1.tpl_render, render, Resume1.TEMPLATE.
      find_text (lit "<div>LinkedIn: ") [linkedin d] (lit "</div>").
  - intros H. split.
    + unfold Resume.render_html, render, Resume.TEMPLATE.
      find_pieces [lit "GitHub: "; github d].
    + unfold Resume1.tpl_render, render, Resume1.TEMPLATE.
      find_text (lit "<div>GitHub: ") [github d] (lit "</div>").
  - intros H. apply pieces_absent. simpl. now rewrite H.
  - intros inp rest H. unfold Resume.interactive_fill in H. run_inv. simpl.
    destruct (truthy (strip _)) eqn:E; [right | now left].
    apply blank_false_iff. unfold blank. now rewrite E.
Qed.

(** The amended C3 at the record whose summary is three blanks, and at a
    run of the prompt collector that answers the summary prompt with
    blanks. *)
Lemma C3_visibility_is_decided_by_emptiness_witness :
  occurs (heading Summary) (Resume.render_html blank_summary Resume.CSS noon)
  /\ (summary (only_name (lit "Jane Doe")) = []
      \/ has_text (summary (only_name (lit "Jane Doe")))).
Proof.
  split.
  - apply (proj1 (C3_visibility_is_decided_by_emptiness
                    blank_summary Resume.CSS noon)).
    discriminate.
  - destruct (C3_visibility_is_decided_by_emptiness
                (only_name (lit "Jane Doe")) Resume.CSS noon)
      as (_ & _ & _ & _ & _ & _ & _ & _ & H).
    apply (H (lit "Jane Doe" :: repeat [] 6 ++ [lit "  "] ++ repeat [] 5) []).
    reflexivity.
Defined.

(** ** C4: an open-ended job ends in Present *)

(** C4: for every job of the record, both templates output the line of
    its dates with the end date as it is stored, and with the word
    Present in its place when the end date is the empty string. *)
Theorem C4_empty_end_date_shows_Present
        (d : ResumeRecord) (css : str) (now : Resume.datetime) (job : Job.t) :
  In job (experience d) ->
  occurs (job_dates job) (Resume.render_html d css now)
  /\ occurs (job_dates1 job) (Resume1.tpl_render d)
  /\ (Job.end_date job = [] -> shown_end job = lit "Present")
  /\ (Job.end_date job <> [] -> shown_end job = Job.end_date job).
Proof.
  intros H. repeat split.
  - eapply infix_trans; [apply job_dates_in_pieces | now apply job_in_output].
  - eapply infix_trans; [apply job_dates_in_pieces1 | now apply job_in_output1].
  - unfold shown_end. now intros ->.
  - unfold shown_end. destruct (Job.end_date job); [now intros [] | reflexivity].
Qed.

(** C4 at the job whose end date is empty: its dates read 2020, the dash
    and Present. *)
Lemma C4_empty_end_date_shows_Present_witness :
  occurs (lit "<div>Acme " ++ Resume1.middot ++ lit " 2020 " ++ Resume1.emdash
            ++ lit " Present</div>")
         (Resume1.tpl_render jane).
Proof.
  apply (proj1 (proj2 (C4_empty_end_date_shows_Present
                         jane Resume.CSS noon engineer (or_introl eq_refl)))).
Defined.

(** ** C5: blank lines in a bullet group *)

(** C5 fails in the form variant.  A text area is split at its line
    breaks and every piece is stored: the blank line between two
    responsibilities becomes a third, empty responsibility, which the
    template outputs as an empty bullet.  The prompt variant does what
    the claim says ([bullet_lines_spec], [bullet_lines_have_text]): the
    same three lines, read one by one, end the loop at the blank line and
    leave one stored bullet. *)
Theorem C5_form_stores_blank_line_as_bullet :
  Resume1.lines_of two_lines = [lit "Built X"; []; lit "Shipped Y"]
  /\ map Job.responsibilities (Resume1.experience form)
     = [[lit "Built X"; []; lit "Shipped Y"]]
  /\ occurs (li []) (Resume1.html form)
  /\ Resume.bullet_lines [lit "Built X"; []; lit "Shipped Y"]
     = Resume.Ok [lit "Built X"] [lit "Shipped Y"].
Proof.
  repeat split; try (apply occursb_true); vm_compute; reflexivity.
Qed.

(** ** C6: the string stored for a skill *)

(** C6, as stated, fails in the form variant: the sub-skills Go and Rust,
    typed as the comma-separated text [Go,Rust], are stored as typed, not
    joined with a comma and a blank. *)
Lemma C6_form_keeps_sub_skill_text :
  join (lit ",") [lit "Go"; lit "Rust"] = lit "Go,Rust"
  /\ Resume1.skills form = [lit "Languages: Go,Rust"]
  /\ Resume1.skills form
     <> [lit "Languages" ++ lit ": " ++ join (lit ", ") [lit "Go"; lit "Rust"]].
Proof.
  repeat split; try (vm_compute; reflexivity). vm_compute. discriminate.
Qed.

(** C6, amended.  Prompt variant: a main skill with the sub-skills read
    line by line up to the first blank line is stored as the main skill,
    a colon and a blank, and the stripped sub-skills joined with a comma
    and a blank; without sub-skills it is stored as the main skill alone.
    Form variant: a main skill is stored with a colon, a blank and the
    sub-skill text exactly as it was typed, or alone when that text is
    empty. *)
Theorem C6_stored_skill_string (main : str) :
  (forall acc inp subs rest,
      blank main = false -> until_blank inp = Some (subs, rest) ->
      Resume.skills_round acc (main :: inp)
      = Resume.Ok (Resume.Continue
                     (acc ++ [Resume.skill_entry main (map strip subs)])) rest
      /\ (subs <> [] ->
          Resume.skill_entry main (map strip subs)
          = main ++ lit ": " ++ join (lit ", ") (map strip subs))
      /\ (subs = [] -> Resume.skill_entry main (map strip subs) = main))
  /\ (forall text,
        main <> [] ->
        (text <> [] ->
         Resume1.skill_entry main text = [main ++ lit ": " ++ text])
        /\ (text = [] -> Resume1.skill_entry main text = [main])).
Proof.
  split.
  - intros acc inp subs rest Hm Hi. repeat split.
    + unfold Resume.skills_round, Resume.bind, Resume.input.
      fold (blank main). rewrite Hm, bullet_lines_spec, Hi. reflexivity.
    + intros Hs. unfold Resume.skill_entry.
      destruct subs; [now elim Hs | reflexivity].
    + now intros ->.
  - intros text Hne. unfold Resume1.skill_entry.
    destruct main; [now elim Hne|]. split.
    + intros Ht. destruct text; [now elim Ht | reflexivity].
    + now intros ->.
Qed.

(** The amended C6 at the main skill Languages with the sub-skills Go and
    Rust, answered line by line, and at the form text. *)
Lemma C6_stored_skill_string_witness :
  Resume.skills_round [] [lit "Languages"; lit "Go"; lit " Rust "; []; []]
  = Resume.Ok (Resume.Continue [lit "Languages: Go, Rust"]) [[]]
  /\ Resume1.skill_entry (lit "Languages") (lit "Go,Rust")
     = [lit "Languages: Go,Rust"].
Proof.
  destruct (C6_stored_skill_string (lit "Languages")) as [P F].
  split.
  - apply (P [] [lit "Go"; lit " Rust "; []; []] [lit "Go"; lit " Rust "] [[]]);
      reflexivity.
  - apply (F (lit "Go,Rust")); discriminate.
Defined.

(** ** C7: the footer stamp *)

(** C7, as stated, fails in the form variant: its template has no footer
    and its output holds no time stamp. *)
Lemma C7_form_has_no_stamp :
  ~ occurs (lit "Generated on") (Resume1.tpl_render jane)
  /\ ~ occurs (lit "UTC") (Resume1.tpl_render jane).
Proof. split; apply occursb_false; vm_compute; reflexivity. Qed.

(** C7, amended: the output of the prompt variant holds the footer
    [Generated on] followed by the time of the call, which is written as
    four digits, a dash, two digits, a dash, two digits, a blank, two
    digits, a colon, two digits and [ UTC], the digits being the year,
    month, day, hour and minute.  The form variant has no footer. *)
Theorem C7_footer_stamp
        (d : ResumeRecord) (css : str) (now : Resume.datetime) :
  Resume.valid_datetime now ->
  occurs (lit "Generated on " ++ Resume.strftime now ++ lit "</div>")
         (Resume.render_html d css now)
  /\ matches "dddd-dd-dd dd:dd UTC" (Resume.strftime now) = true
  /\ number (slice 0 4 (Resume.strftime now)) = Resume.year now
  /\ number (slice 5 7 (Resume.strftime now)) = Resume.month now
  /\ number (slice 8 10 (Resume.strftime now)) = Resume.day now
  /\ number (slice 11 13 (Resume.strftime now)) = Resume.hour now
  /\ number (slice 14 16 (Resume.strftime now)) = Resume.minute now.
Proof.
  intros (Hy & Hm & Hd & Hh & Hmi). repeat split.
  - unfold Resume.render_html, render, Resume.TEMPLATE.
    find_text (lit "Generated on ") [Resume.strftime now] (lit "</div>").
  - apply strftime_format.
  - apply number_pad4. lia.
  - apply number_pad2. lia.
  - apply number_pad2. lia.
  - apply number_pad2. lia.
  - apply number_pad2. lia.
Qed.

(** C7 at 9 March 2024, 12:05. *)
Lemma C7_footer_stamp_witness :
  occurs (lit "Generated on 2024-03-09 12:05 UTC</div>")
         (Resume.render_html jane Resume.CSS noon).
Proof.
  apply (C7_footer_stamp jane Resume.CSS noon).
  unfold Resume.valid_datetime, noon. simpl. lia.
Defined.

(** ** C8: the order of the lists *)

(** C8: both templates output the entries of every list of the record in
    the order of the list, each with its whole text: the title lines of
    the jobs, of the education entries and of the projects, the skills
    and the strengths as bullets, and for every job and project its own
    bullets. *)
Theorem C8_lists_are_output_in_order
        (d : ResumeRecord) (css : str) (now : Resume.datetime) :
  (in_order (map job_title (experience d)) (Resume.render_html d css now)
   /\ in_order (map edu_title (education d)) (Resume.render_html d css now)
   /\ in_order (map project_title (projects d)) (Resume.render_html d css now)
   /\ in_order (map li (skills d)) (Resume.render_html d css now)
   /\ in_order (map li (strengths d)) (Resume.render_html d css now)
   /\ (forall job, In job (experience d) ->
       in_order (map li (Job.responsibilities job))
                (Resume.render_html d css now))
   /\ (forall p, In p (projects d) ->
       in_order (map li (Project.points p)) (Resume.render_html d css now)))
  /\ (in_order (map job_title1 (experience d)) (Resume1.tpl_render d)
      /\ in_order (map edu_title1 (education d)) (Resume1.tpl_render d)
      /\ in_order (map project_title1 (projects d)) (Resume1.tpl_render d)
      /\ in_order (map li (skills d)) (Resume1.tpl_render d)
      /\ in_order (map li (strengths d)) (Resume1.tpl_render d)
      /\ (forall job, In job (experience d) ->
          in_order (map li (Job.responsibilities job)) (Resume1.tpl_render d))
      /\ (forall p, In p (projects d) ->
          in_order (map li (Project.points p)) (Resume1.tpl_render d))).
Proof.
  split; repeat apply conj.
  - apply experience_in_order.
  - apply education_in_order.
  - apply projects_in_order.
  - apply skills_in_order.
  - apply strengths_in_order.
  - apply job_bullets_in_order.
  - apply project_bullets_in_order.
  - apply experience_in_order1.
  - apply education_in_order1.
  - apply projects_in_order1.
  - apply skills_in_order1.
  - apply strengths_in_order1.
  - apply job_bullets_in_order1.
  - apply project_bullets_in_order1.
Qed.

(** C8 at a job with two responsibilities: Built X comes before
    Shipped Y. *)
Lemma C8_lists_are_output_in_order_witness :
  in_order [li (lit "Built X"); li (lit "Shipped Y")]
           (Resume.render_html jane Resume.CSS noon).
Proof.
  apply (proj1 (proj2 (proj2 (proj2 (proj2 (proj2 (proj1
           (C8_lists_are_output_in_order jane Resume.CSS noon))))))) engineer).
  simpl. left. reflexivity.
Defined.

(** ** C9: rendering never fails *)

Lemma plain_nil : plain [].
Proof. intros H. exact H. Qed.

Lemma plain_only_name (n : str) : plain n -> plain_record (only_name n).
Proof.
  intros H. unfold plain_record, only_name. simpl.
  repeat split; first [exact H | apply plain_nil | apply Forall_nil].
Qed.

Lemma concat_starts (x L0 : str) (L : list str) :
  startswith L0 x = true -> exists rest, concat (L0 :: L) = x ++ rest.
Proof.
  intros H. apply startswith_true in H as (q & ->).
  exists (q ++ concat L). simpl. now rewrite app_assoc.
Qed.

Lemma concat_ends (x A : str) (L : list str) :
  endswith A x = true -> (exists P, L = P ++ [A]) ->
  exists body, concat L = body ++ x.
Proof.
  intros H (P & ->). apply endswith_true in H as (p & ->).
  exists (concat P ++ p). rewrite concat_app. simpl.
  now rewrite app_nil_r, app_assoc.
Qed.

Lemma last_of_app {A} (a : A) (L1 L2 : list A) :
  (exists P, L2 = P ++ [a]) -> exists P, L1 ++ L2 = P ++ [a].
Proof. intros (P & ->). exists (L1 ++ P). now rewrite app_assoc. Qed.

(** C9: [render_html] is a total function of the record, the style sheet
    and the time: no record makes it fail.  Its output always opens with
    the document type and closes the [body] and [html] elements, and
    names the record in its title.  For the record in which only the name
    is set the output is exactly the template's fixed text around the
    name, the style sheet and the time stamp: every optional section
    yields nothing, and with a name and a style sheet free of tags no
    section heading occurs in the output. *)
Theorem C9_render_never_fails
        (d : ResumeRecord) (n css : str) (now : Resume.datetime) :
  (exists rest,
      Resume.render_html d css now = (10%N :: lit "<!doctype html>") ++ rest)
  /\ (exists body,
         Resume.render_html d css now
         = body ++ lit "</body>" ++ [10%N] ++ lit "</html>")
  /\ occurs (lit "<title>" ++ name d ++ lit " - Resume</title>")
            (Resume.render_html d css now)
  /\ Resume.render_html (only_name n) css now
     = minimal_document n css (Resume.strftime now)
  /\ (forall sec, pieces sec (only_name n) = [])
  /\ (plain n -> plain css ->
      forall sec,
        ~ occurs (heading sec) (Resume.render_html (only_name n) css now)).
Proof.
  repeat apply conj.
  - unfold Resume.render_html, render, Resume.TEMPLATE. cbn [app].
    match goal with
    | |- exists rest, concat (?L0 :: ?L) = _ =>
        destruct (concat_starts (10%N :: lit "<!doctype html>") L0 L)
          as (r & E); [vm_compute; reflexivity | exists r; exact E]
    end.
  - unfold Resume.render_html, render, Resume.TEMPLATE.
    eapply concat_ends; [|repeat apply last_of_app; eexists [_; _]; reflexivity].
    vm_compute. reflexivity.
  - unfold Resume.render_html, render, Resume.TEMPLATE.
    find_text (lit "<title>") [name d] (lit " - Resume</title>").
  - unfold Resume.render_html, render, Resume.TEMPLATE, minimal_document,
      only_name.
    generalize (Resume.strftime now). intros g. vm_compute. reflexivity.
  - intros sec. now destruct sec.
  - intros Hn Hc sec. apply heading_hidden; [now apply plain_only_name | exact Hc|].
    now destruct sec.
Qed.

(** C9 at the record in which only the name Jane Doe is set. *)
Lemma C9_render_never_fails_witness :
  ~ occurs (heading Experience)
      (Resume.render_html (only_name (lit "Jane Doe")) Resume.CSS noon).
Proof.
  apply (proj2 (proj2 (proj2 (proj2 (proj2
           (C9_render_never_fails jane (lit "Jane Doe") Resume.CSS noon)))))).
  - apply plain_forallb. vm_compute. reflexivity.
  - exact plain_CSS.
Defined.

(** ** C10: a blank answer ends a group *)

(** C10: in the prompt collector an answer of white space only (the
    empty answer included) to the first prompt of a group ends the loop
    of that group with the list as it stood, for the jobs, the education
    entries, the projects, the skills and the strengths alike; and in
    every record the collector returns, the title of every job, the
    degree of every education entry, the name of every project, every
    skill and every strength holds a character that is not white space.
    The collector returns such a record or meets the end of its input: no
    loop of the model runs out of fuel. *)
Theorem C10_blank_answer_ends_group :
  (forall line rest,
      blank line = true ->
      (forall acc, Resume.while_true Resume.experience_round acc (line :: rest)
                   = Resume.Ok acc rest)
      /\ (forall acc, Resume.while_true Resume.education_round acc (line :: rest)
                      = Resume.Ok acc rest)
      /\ (forall acc, Resume.while_true Resume.projects_round acc (line :: rest)
                      = Resume.Ok acc rest)
      /\ (forall acc, Resume.while_true Resume.skills_round acc (line :: rest)
                      = Resume.Ok acc rest)
      /\ (forall acc, Resume.while_true Resume.bullet_round acc (line :: rest)
                      = Resume.Ok acc rest))
  /\ (forall inp d rest,
        Resume.interactive_fill inp = Resume.Ok d rest ->
        Forall (fun j => has_text (Job.title j)) (experience d)
        /\ Forall (fun e => has_text (Edu.degree e)) (education d)
        /\ Forall (fun p => has_text (Project.name p)) (projects d)
        /\ Forall has_text (skills d)
        /\ Forall has_text (strengths d))
  /\ (forall inp, Resume.interactive_fill inp <> Resume.OutOfFuel).
Proof.
  split; [|split; [|exact interactive_fill_returns]].
  - intros line rest H.
    repeat split; intros acc; apply while_true_breaks; now apply round_breaks.
  - intros inp d rest H. unfold Resume.interactive_fill in H. run_inv. simpl.
    repeat split;
      eauto using experience_have_text, education_have_text,
        projects_have_text, skills_have_text, bullet_lines_have_text.
Qed.

(** C10 at a run in which the job title prompt is answered with two
    blanks: no job is stored, and the education prompt comes next. *)
Lemma C10_blank_answer_ends_group_witness :
  Resume.while_true Resume.experience_round [] [lit "  "; lit "BSc"]
  = Resume.Ok [] [lit "BSc"].
Proof.
  apply (proj1 (proj1 C10_blank_answer_ends_group (lit "  ") [lit "BSc"] eq_refl)).
Defined.

(* ================================================================== *)
(** * Further properties of the code *)
(* ================================================================== *)

(** ** Stripped strings *)

Lemma lstrip_suffix (s : str) : exists p, s = p ++ lstrip s.
Proof.
  induction s as [|c s (p & IH)]; simpl; [now exists []|].
  destruct (isspace c); [|now exists []].
  exists (c :: p). simpl. now rewrite <- IH.
Qed.

Lemma lstrip_keeps (c : char) (s : str) :
  isspace c = false -> lstrip (c :: s) = c :: s.
Proof. simpl. now intros ->. Qed.

Lemma trimmed_strip (s : str) : trimmed s -> strip s = s.
Proof.
  intros [H1 H2]. unfold strip, rstrip.
  destruct s as [|c s]; [contradiction|].
  rewrite (lstrip_keeps c s H1).
  destruct (rev (c :: s)) as [|a r] eqn:E; [contradiction|].
  rewrite (lstrip_keeps a r H2), <- E. apply rev_involutive.
Qed.

Lemma strip_trimmed (s : str) : strip s <> [] -> trimmed (strip s).
Proof.
  unfold strip, rstrip. intros H.
  destruct (lstrip (rev (lstrip s))) as [|c u] eqn:E; [now elim H|].
  pose proof (lstrip_head _ _ _ E) as Hc.
  split.
  - destruct (lstrip_suffix (rev (lstrip s))) as (p & Hp).
    rewrite E in Hp.
    assert (lstrip s = rev (c :: u) ++ rev p) as Ht
      by (rewrite <- rev_app_distr, <- Hp, rev_involutive; reflexivity).
    destruct (rev (c :: u)) as [|a r] eqn:Er.
    + apply (f_equal (@length _)) in Er. rewrite length_rev in Er. discriminate.
    + simpl in Ht. now apply lstrip_head in Ht.
  - rewrite rev_involutive. exact Hc.
Qed.

Lemma trimmed_not_blank (s : str) : trimmed s -> blank s = false.
Proof.
  intros H. unfold blank. rewrite (trimmed_strip s H).
  destruct s; [destruct H; contradiction | reflexivity].
Qed.

Lemma stored_line_trimmed (r : str) : blank r = false -> trimmed (strip r).
Proof.
  unfold blank. rewrite negb_false_iff, truthy_true. apply strip_trimmed.
Qed.

Lemma map_strip_trimmed (l : list str) : Forall trimmed l -> map strip l = l.
Proof.
  induction 1 as [|x l Hx _ IH]; simpl; [reflexivity|].
  now rewrite IH, (trimmed_strip x Hx).
Qed.

(** ** Fuel *)

Lemma loop_more_fuel {St} (body : St -> Resume.M (Resume.step St)) :
  forall f s inp,
    Resume.loop f body s inp <> Resume.OutOfFuel ->
    forall f', f <= f' -> Resume.loop f' body s inp = Resume.loop f body s inp.
Proof.
  induction f as [|f IH]; intros s inp H f' Hf; [now elim H|].
  destruct f' as [|f']; [lia|]. simpl in *.
  destruct (body s inp) as [[s'|s'] rest| |]; try reflexivity.
  apply IH; [exact H | lia].
Qed.

(** A round that goes on is one round of the whole loop. *)
Lemma while_true_continue {St} (body : St -> Resume.M (Resume.step St))
      (s s' : St) (inp rest : list str) :
  (forall s, consumes (body s) 1) ->
  body s inp = Resume.Ok (Resume.Continue s') rest ->
  Resume.while_true body s inp = Resume.while_true body s' rest.
Proof.
  intros Hb H. unfold Resume.while_true.
  pose proof (Hb s inp) as Hc. rewrite H in Hc.
  transitivity (Resume.loop (length inp) body s' rest);
    [simpl; now rewrite H|].
  apply loop_more_fuel; [|lia].
  intros E. pose proof (loop_consumes body Hb (S (length rest)) s' rest) as Hl.
  rewrite E in Hl. apply Hl. lia.
Qed.

(** A loop that stores one entry for the lines of each entry and stops
    at a blank line stores the entries in their order. *)
Lemma while_true_script {E X} (body : list X -> Resume.M (Resume.step (list X)))
      (lines : E -> list str) (store : E -> X) (ok : E -> Prop) :
  (forall s, consumes (body s) 1) ->
  (forall acc e more,
      ok e ->
      body acc (lines e ++ more)
      = Resume.Ok (Resume.Continue (acc ++ [store e])) more) ->
  (forall acc b more,
      blank b = true ->
      body acc (b :: more) = Resume.Ok (Resume.Break acc) more) ->
  forall es acc b more,
    Forall ok es -> blank b = true ->
    Resume.while_true body acc (flat_map lines es ++ b :: more)
    = Resume.Ok (acc ++ map store es) more.
Proof.
  intros Hc Hstep Hstop es. induction es as [|e es IH]; intros acc b more Hes Hb.
  - simpl. rewrite app_nil_r. apply while_true_breaks. now apply Hstop.
  - inversion Hes as [|? ? He Hes']; subst. simpl. rewrite <- app_assoc.
    rewrite (while_true_continue body acc (acc ++ [store e])
               (lines e ++ flat_map lines es ++ b :: more)
               (flat_map lines es ++ b :: more) Hc (Hstep _ _ _ He)).
    rewrite IH by assumption. now rewrite <- app_assoc.
Qed.

Lemma until_blank_app (ls : list str) (b : str) (rest : list str) :
  Forall (fun l => blank l = false) ls -> blank b = true ->
  until_blank (ls ++ b :: rest) = Some (ls, rest).
Proof.
  intros Hl Hb. induction Hl as [|l ls Hl _ IH]; simpl.
  - now rewrite Hb.
  - now rewrite Hl, IH.
Qed.

Lemma bullet_lines_script (ls : list str) (rest : list str) :
  Forall (fun l => blank l = false) ls ->
  Resume.bullet_lines (ls ++ [] :: rest) = Resume.Ok (map strip ls) rest.
Proof.
  intros H. rewrite bullet_lines_spec.
  pose proof (until_blank_app ls [] rest H eq_refl) as E.
  cbv [str char] in *. now rewrite E.
Qed.

(** ** The prompt collector on the answers of a record *)

Lemma experience_round_script (acc : list Job.t) (j : Job.t) (more : list str) :
  job_answers j ->
  Resume.experience_round acc (job_lines j ++ more)
  = Resume.Ok (Resume.Continue (acc ++ [stored_job j])) more.
Proof.
  intros [Ht Hr]. unfold job_lines. rewrite <- !app_assoc. cbn [app].
  unfold Resume.experience_round, Resume.bind at 1, Resume.input at 1.
  fold (blank (Job.title j)). rewrite Ht. cbn [negb].
  unfold Resume.bind, Resume.input.
  pose proof (bullet_lines_script (Job.responsibilities j) more Hr) as E.
  cbv [str char] in *. rewrite E. reflexivity.
Qed.

Lemma education_round_script (acc : list Edu.t) (e : Edu.t) (more : list str) :
  blank (Edu.degree e) = false ->
  Resume.education_round acc (edu_lines e ++ more)
  = Resume.Ok (Resume.Continue (acc ++ [e])) more.
Proof.
  intros Ht. unfold edu_lines. cbn [app].
  unfold Resume.education_round, Resume.bind at 1, Resume.input at 1.
  fold (blank (Edu.degree e)). rewrite Ht. now destruct e.
Qed.

Lemma projects_round_script (acc : list Project.t) (p : Project.t)
      (more : list str) :
  project_answers p ->
  Resume.projects_round acc (project_lines p ++ more)
  = Resume.Ok (Resume.Continue (acc ++ [stored_project p])) more.
Proof.
  intros [Ht Hr]. unfold project_lines. rewrite <- !app_assoc. cbn [app].
  unfold Resume.projects_round, Resume.bind at 1, Resume.input at 1.
  fold (blank (Project.name p)). rewrite Ht. cbn [negb].
  unfold Resume.bind, Resume.input.
  pose proof (bullet_lines_script (Project.points p) more Hr) as E.
  cbv [str char] in *. rewrite E. reflexivity.
Qed.

Lemma skills_round_script (acc : list str) (ms : str * list str)
      (more : list str) :
  skill_answers ms ->
  Resume.skills_round acc (skill_lines ms ++ more)
  = Resume.Ok (Resume.Continue (acc ++ [stored_skill ms])) more.
Proof.
  intros [Ht Hr]. unfold skill_lines. rewrite <- !app_comm_cons, <- app_assoc.
  cbn [app].
  unfold Resume.skills_round, Resume.bind at 1, Resume.input at 1.
  fold (blank (fst ms)). rewrite Ht. cbn [negb].
  unfold Resume.bind.
  pose proof (bullet_lines_script (snd ms) more Hr) as E.
  cbv [str char] in *. rewrite E. reflexivity.
Qed.

Lemma bullet_round_script (acc : list str) (r : str) (more : list str) :
  blank r = false ->
  Resume.bullet_round acc ([r] ++ more)
  = Resume.Ok (Resume.Continue (acc ++ [strip r])) more.
Proof.
  intros H. simpl. unfold Resume.bullet_round, Resume.bind, Resume.input.
  fold (blank r). now rewrite H.
Qed.

Lemma flat_map_single {A} (l : list A) : flat_map (fun r => [r]) l = l.
Proof. induction l; simpl; congruence. Qed.

Section Scripts.
Variables (b : str) (more : list str).
Hypothesis Hb : blank b = true.

Lemma experience_script (acc jobs : list Job.t) :
  Forall job_answers jobs ->
  Resume.while_true Resume.experience_round acc
    (flat_map job_lines jobs ++ b :: more)
  = Resume.Ok (acc ++ map stored_job jobs) more.
Proof.
  intros H. apply while_true_script with (ok := job_answers); trivial.
  - apply experience_round_consumes.
  - intros. now apply experience_round_script.
  - intros. now apply round_breaks.
Qed.

Lemma education_script (acc es : list Edu.t) :
  Forall (fun e => blank (Edu.degree e) = false) es ->
  Resume.while_true Resume.education_round acc
    (flat_map edu_lines es ++ b :: more)
  = Resume.Ok (acc ++ es) more.
Proof.
  intros H. rewrite <- (map_id es) at 2.
  apply while_true_script
    with (ok := fun e => blank (Edu.degree e) = false); trivial.
  - apply education_round_consumes.
  - intros. now apply education_round_script.
  - intros. now apply round_breaks.
Qed.

Lemma projects_script (acc ps : list Project.t) :
  Forall project_answers ps ->
  Resume.while_true Resume.projects_round acc
    (flat_map project_lines ps ++ b :: more)
  = Resume.Ok (acc ++ map stored_project ps) more.
Proof.
  intros H. apply while_true_script with (ok := project_answers); trivial.
  - apply projects_round_consumes.
  - intros. now apply projects_round_script.
  - intros. now apply round_breaks.
Qed.

Lemma skills_script (acc : list str) (sk : list (str * list str)) :
  Forall skill_answers sk ->
  Resume.while_true Resume.skills_round acc
    (flat_map skill_lines sk ++ b :: more)
  = Resume.Ok (acc ++ map stored_skill sk) more.
Proof.
  intros H. apply while_true_script with (ok := skill_answers); trivial.
  - apply skills_round_consumes.
  - intros. now apply skills_round_script.
  - intros. now apply round_breaks.
Qed.

Lemma bullets_script (acc ls : list str) :
  Forall (fun r => blank r = false) ls ->
  Resume.while_true Resume.bullet_round acc (ls ++ b :: more)
  = Resume.Ok (acc ++ map strip ls) more.
Proof.
  intros H.
  rewrite <- (flat_map_single ls) at 1.
  apply while_true_script with (ok := fun r => blank r = false); trivial.
  - apply bullet_round_consumes.
  - intros. now apply bullet_round_script.
  - intros. now apply round_breaks.
Qed.
End Scripts.

Lemma fill_script (d : ResumeRecord) (sk : list (str * list str))
      (rest : list str) :
  answers d sk ->
  Resume.interactive_fill (script d sk ++ rest) = Resume.Ok (stored d sk) rest.
Proof.
  intros (Hj & He & Hp & Hs & Hr). unfold script.
  rewrite <- !app_assoc. cbn [app].
  unfold Resume.interactive_fill.
  do 8 (unfold Resume.bind at 1, Resume.input at 1).
  unfold Resume.bind at 1, Resume.experience_loop.
  rewrite (experience_script [] _ eq_refl [] _ Hj).
  unfold Resume.bind at 1, Resume.education_loop.
  rewrite (education_script [] _ eq_refl [] _ He).
  unfold Resume.bind at 1, Resume.projects_loop.
  rewrite (projects_script [] _ eq_refl [] _ Hp).
  unfold Resume.bind at 1, Resume.skills_loop.
  rewrite (skills_script [] _ eq_refl [] _ Hs).
  unfold Resume.bind at 1, Resume.bullet_lines.
  rewrite (bullets_script [] _ eq_refl [] _ Hr).
  unfold Resume.ret, stored, blank. cbn [app].
  now destruct (truthy (strip (summary d))).
Qed.

Lemma stored_trimmed (d : ResumeRecord) (sk : list (str * list str)) :
  trimmed_record d -> skills d = map stored_skill sk -> stored d sk = d.
Proof.
  intros (Hs & Hj & Hp & Hr) Hk. destruct d as [n t e p l li g s js es ps ks rs].
  unfold stored. simpl in *. f_equal.
  - destruct Hs as [-> | ->]; reflexivity.
  - induction Hj as [|j js Hj _ IH]; simpl; [reflexivity|].
    rewrite IH. f_equal. destruct j. unfold stored_job. simpl in *.
    now rewrite map_strip_trimmed.
  - induction Hp as [|q ps Hq _ IH]; simpl; [reflexivity|].
    rewrite IH. f_equal. destruct q. unfold stored_project. simpl in *.
    now rewrite map_strip_trimmed.
  - now symmetry.
  - now apply map_strip_trimmed.
Qed.

(** X1: answering the prompts with the fields of a record, entry by entry
    and every group closed by an empty answer, makes [interactive_fill]
    return that record with its bullets stripped, a blank summary emptied
    and each skill joined from its main skill and sub-skills, and leaves
    the lines that follow unread.  A record whose bullets are trimmed and
    whose summary is empty or not blank comes back unchanged. *)
Theorem X1_prompts_return_the_typed_record
        (d : ResumeRecord) (sk : list (str * list str)) (rest : list str) :
  answers d sk ->
  Resume.interactive_fill (script d sk ++ rest) = Resume.Ok (stored d sk) rest
  /\ (trimmed_record d -> skills d = map stored_skill sk ->
      Resume.interactive_fill (script d sk ++ rest) = Resume.Ok d rest).
Proof.
  intros H. split; [now apply fill_script|].
  intros Ht Hk. rewrite (fill_script d sk rest H).
  now rewrite (stored_trimmed d sk Ht Hk).
Qed.

Lemma answers_jane : answers jane [(lit "Languages", [lit "Go"; lit "Rust"])].
Proof.
  unfold answers, jane, job_answers, skill_answers, engineer. simpl.
  repeat first [split | apply Forall_nil | apply Forall_cons | reflexivity].
Qed.

Lemma trimmed_jane : trimmed_record jane.
Proof.
  unfold trimmed_record, jane, engineer, trimmed. simpl.
  repeat first [split | apply Forall_nil | apply Forall_cons | reflexivity
               | now left].
Qed.

(** X1 at the sample record, typed with one more line after it. *)
Lemma X1_prompts_return_the_typed_record_witness :
  Resume.interactive_fill
    (script jane [(lit "Languages", [lit "Go"; lit "Rust"])] ++ [lit "next"])
  = Resume.Ok jane [lit "next"].
Proof.
  apply (proj2 (X1_prompts_return_the_typed_record jane
                  [(lit "Languages", [lit "Go"; lit "Rust"])] [lit "next"]
                  answers_jane)).
  - exact trimmed_jane.
  - reflexivity.
Defined.

(** ** How much input the collector needs *)

Lemma consumes_bind_add {A B} (c : Resume.M A) (k : A -> Resume.M B)
      (n m : nat) :
  consumes c n -> (forall a, consumes (k a) m) ->
  consumes (Resume.bind c k) (n + m).
Proof.
  intros Hc Hk inp. unfold Resume.bind. specialize (Hc inp).
  destruct (c inp) as [a mid| |]; [|trivial|trivial].
  specialize (Hk a mid). destruct (k a mid); [lia | trivial | trivial].
Qed.

Lemma interactive_fill_consumes : consumes Resume.interactive_fill 13.
Proof.
  unfold Resume.interactive_fill, Resume.experience_loop,
    Resume.education_loop, Resume.projects_loop, Resume.skills_loop.
  do 8 (apply (consumes_bind_add _ _ 1); [apply consumes_input | intros ?]).
  apply (consumes_bind_add _ _ 1 4);
    [apply while_true_consumes, experience_round_consumes | intros ?].
  apply (consumes_bind_add _ _ 1 3);
    [apply while_true_consumes, education_round_consumes | intros ?].
  apply (consumes_bind_add _ _ 1 2);
    [apply while_true_consumes, projects_round_consumes | intros ?].
  apply (consumes_bind_add _ _ 1 1);
    [apply while_true_consumes, skills_round_consumes | intros ?].
  apply (consumes_bind_add _ _ 1 0);
    [apply bullet_lines_consumes | intros ?].
  apply consumes_ret.
Qed.

(** X2: [interactive_fill] reads at least thirteen lines: eight single
    answers and one answer to the first prompt of each of the five
    groups.  On an input of fewer lines it stops with [EOFError], and
    thirteen empty lines are enough for it to return a record. *)
Theorem X2_collector_needs_thirteen_lines :
  (forall inp, length inp < 13 ->
               Resume.interactive_fill inp = Resume.EOFError)
  /\ (forall inp d rest,
         Resume.interactive_fill inp = Resume.Ok d rest ->
         length rest + 13 <= length inp)
  /\ Resume.interactive_fill (repeat [] 13) = Resume.Ok (only_name []) [].
Proof.
  split; [|split].
  - intros inp H. pose proof (interactive_fill_consumes inp) as Hc.
    destruct (Resume.interactive_fill inp); [lia | reflexivity | contradiction].
  - intros inp d rest H. pose proof (interactive_fill_consumes inp) as Hc.
    now rewrite H in Hc.
  - reflexivity.
Qed.

(** X2 at an input of twelve lines. *)
Lemma X2_collector_needs_thirteen_lines_witness :
  Resume.interactive_fill (repeat (lit "x") 12) = Resume.EOFError.
Proof.
  apply (proj1 X2_collector_needs_thirteen_lines). simpl. lia.
Defined.

(** ** What the collector stores *)

Lemma bullet_lines_trimmed inp lines rest :
  Resume.bullet_lines inp = Resume.Ok lines rest -> Forall trimmed lines.
Proof.
  rewrite bullet_lines_spec.
  destruct (until_blank inp) as [[ls rest']|] eqn:E; [|discriminate].
  intros H. injection H as <- _. apply until_blank_not_blank in E.
  induction E; simpl; constructor; auto using stored_line_trimmed.
Qed.

Lemma experience_bullets_trimmed inp l rest :
  Resume.experience_loop inp = Resume.Ok l rest ->
  Forall (fun j => Forall trimmed (Job.responsibilities j)) l.
Proof.
  apply while_true_invariant; [|constructor].
  intros s inp' r rest' Hs H. unfold Resume.experience_round in H.
  apply bind_Ok in H as (title & mid & H1 & H).
  destruct (negb (truthy (strip title))) eqn:E; run_inv; [exact Hs|].
  simpl. apply Forall_app. split; [exact Hs|]. constructor; [|constructor].
  simpl. eauto using bullet_lines_trimmed.
Qed.

Lemma projects_bullets_trimmed inp l rest :
  Resume.projects_loop inp = Resume.Ok l rest ->
  Forall (fun p => Forall trimmed (Project.points p)) l.
Proof.
  apply while_true_invariant; [|constructor].
  intros s inp' r rest' Hs H. unfold Resume.projects_round in H.
  apply bind_Ok in H as (pname & mid & H1 & H).
  destruct (negb (truthy (strip pname))) eqn:E; run_inv; [exact Hs|].
  simpl. apply Forall_app. split; [exact Hs|]. constructor; [|constructor].
  simpl. eauto using bullet_lines_trimmed.
Qed.

(** X3: in every record [interactive_fill] returns, each responsibility
    of a job, each highlight of a project and each strength is stored
    stripped: it starts and ends with a character that is not white
    space, so stripping it again changes nothing. *)
Theorem X3_stored_bullets_are_trimmed
        (inp : list str) (d : ResumeRecord) (rest : list str) :
  Resume.interactive_fill inp = Resume.Ok d rest ->
  Forall (fun j => Forall trimmed (Job.responsibilities j)) (experience d)
  /\ Forall (fun p => Forall trimmed (Project.points p)) (projects d)
  /\ Forall trimmed (strengths d)
  /\ map strip (strengths d) = strengths d.
Proof.
  intros H. unfold Resume.interactive_fill in H. run_inv. simpl.
  match goal with
  | Hl : Resume.bullet_lines _ = Resume.Ok ?l _ |- _ =>
      assert (Forall trimmed l) by (exact (bullet_lines_trimmed _ _ _ Hl))
  end.
  repeat split;
    eauto using experience_bullets_trimmed, projects_bullets_trimmed,
      map_strip_trimmed.
Qed.

(** X3 at a run that answers the strengths prompt with a padded line. *)
Lemma X3_stored_bullets_are_trimmed_witness :
  Forall trimmed [lit "Curious"].
Proof.
  apply (proj1 (proj2 (proj2 (X3_stored_bullets_are_trimmed
           (repeat [] 12 ++ [lit "  Curious "; []])
           (mkResume [] [] [] [] [] [] [] [] [] [] [] [] [lit "Curious"])
           [] eq_refl)))).
Defined.

(** X4: the first eight lines of the input are the answers to the single
    prompts.  The name, tagline, e-mail address, phone, location,
    LinkedIn and GitHub answers are stored exactly as typed, leading and
    trailing white space included; the summary is stored as typed unless
    it is blank, and then as the empty string. *)
Theorem X4_single_answers_are_stored_as_typed
        (inp : list str) (d : ResumeRecord) (rest : list str) :
  Resume.interactive_fill inp = Resume.Ok d rest ->
  firstn 7 inp
  = [name d; tagline d; email d; phone d; location d; linkedin d; github d]
  /\ exists s, nth_error inp 7 = Some s
               /\ summary d = (if blank s then [] else s).
Proof.
  intros H. unfold Resume.interactive_fill in H. run_inv. simpl.
  split; [reflexivity|]. eexists. split; [reflexivity|].
  unfold blank. now destruct (truthy (strip _)).
Qed.

(** X4 at a run whose e-mail answer is one blank. *)
Lemma X4_single_answers_are_stored_as_typed_witness :
  firstn 7 (lit "Jane Doe" :: [] :: lit " " :: repeat [] 10)
  = [lit "Jane Doe"; []; lit " "; []; []; []; []].
Proof.
  apply (proj1 (X4_single_answers_are_stored_as_typed
           (lit "Jane Doe" :: [] :: lit " " :: repeat [] 10)
           (mkResume (lit "Jane Doe") [] (lit " ") [] [] [] [] []
                     [] [] [] [] [])
           [] eq_refl)).
Defined.

(** ** main *)

Lemma encodable_app (a b : str) :
  Resume.encodable (a ++ b) = Resume.encodable a && Resume.encodable b.
Proof. apply forallb_app. Qed.

Lemma write_content (fs : Resume.files) (path text : str) :
  Resume.content (Resume.write fs path text) path = Some text
  /\ (forall p, p <> path ->
        Resume.content (Resume.write fs path text) p = Resume.content fs p).
Proof.
  simpl. split.
  - now destruct (list_eq_dec N.eq_dec _ _).
  - intros p Hp. now destruct (list_eq_dec N.eq_dec p _).
Qed.

(** X5: [main] either saves or raises.  When it saves, the collector has
    returned a record, the file named by the output argument followed by
    [.html] could be opened and holds what [render_html] makes of that
    record with the module's style sheet, a text that UTF-8 can encode,
    and every other file is as it was.  When the input ends before the
    collector is done, and so on any input of fewer than thirteen lines,
    [main] raises [EOFError] and no file has been touched; when the file
    cannot be opened no file has been touched either.  When the file has
    been opened and the document holds a surrogate code point, the write
    raises [UnicodeEncodeError]: the file is left empty, and every other
    file is as it was. *)
Theorem X5_main_saves_or_leaves_files
        (output : str) (inp : list str) (now : Resume.datetime)
        (fs : Resume.files) :
  match Resume.main output inp now fs with
  | Resume.Saved fs' rest =>
      exists data,
        Resume.interactive_fill inp = Resume.Ok data rest
        /\ Resume.opens fs (output ++ lit ".html") = true
        /\ Resume.encodable (Resume.render_html data Resume.CSS now) = true
        /\ Resume.content fs' (output ++ lit ".html")
           = Some (Resume.render_html data Resume.CSS now)
        /\ (forall p, p <> output ++ lit ".html" ->
                      Resume.content fs' p = Resume.content fs p)
  | Resume.Raised_EOFError fs' =>
      fs' = fs /\ Resume.interactive_fill inp = Resume.EOFError
  | Resume.Raised_by_open fs' =>
      fs' = fs /\ Resume.opens fs (output ++ lit ".html") = false
      /\ exists data rest, Resume.interactive_fill inp = Resume.Ok data rest
  | Resume.Raised_UnicodeEncodeError fs' =>
      exists data rest,
        Resume.interactive_fill inp = Resume.Ok data rest
        /\ Resume.opens fs (output ++ lit ".html") = true
        /\ Resume.encodable (Resume.render_html data Resume.CSS now) = false
        /\ Resume.content fs' (output ++ lit ".html") = Some []
        /\ (forall p, p <> output ++ lit ".html" ->
                      Resume.content fs' p = Resume.content fs p)
  | Resume.Diverged => False
  end
  /\ (length inp < 13 -> Resume.main output inp now fs = Resume.Raised_EOFError fs).
Proof.
  unfold Resume.main. split.
  - destruct (Resume.interactive_fill inp) as [data rest| |] eqn:E.
    + cbv zeta.
      destruct (Resume.opens fs (output ++ lit ".html")) eqn:W;
        [|repeat split; eauto].
      destruct (Resume.encodable (Resume.render_html data Resume.CSS now))
        eqn:U.
      * exists data. repeat split; trivial; apply write_content.
      * exists data, rest. repeat split; trivial; apply write_content.
    + now split.
    + now apply interactive_fill_returns in E.
  - intros H. pose proof (interactive_fill_consumes inp) as Hc.
    destruct (Resume.interactive_fill inp); [lia | reflexivity | contradiction].
Qed.

(** X5 at a run with the default output name on an input that ends after
    the name. *)
Lemma X5_main_saves_or_leaves_files_witness :
  Resume.main Resume.default_output [lit "Jane Doe"] noon no_files
  = Resume.Raised_EOFError no_files.
Proof.
  apply (proj2 (X5_main_saves_or_leaves_files
                  Resume.default_output [lit "Jane Doe"] noon no_files)).
  simpl. lia.
Defined.

(** ** The bullet lists of an entry *)

Lemma plain_clean_tag (x' s : str) (tag : str) :
  tag = 60%N :: x' -> plain s -> clean tag s = true.
Proof. intros ->. apply plain_clean. Qed.

(** A piece is clean for [<ul>]. *)
Ltac clean_ul :=
  first
    [ apply (plain_clean_tag (lit "ul>")); [reflexivity | assumption]
    | unfold py_or;
      match goal with
      | |- context [truthy ?f] =>
          destruct (truthy f);
          first [ apply (plain_clean_tag (lit "ul>")); [reflexivity | assumption]
                | vm_compute; reflexivity ]
      end
    | vm_compute; reflexivity ].

Lemma occurs_in_piece (x P : str) (L : list str) :
  infix [P] L -> occursb x P = true -> occurs x (concat L).
Proof.
  intros HL Hx. apply occursb_true in Hx.
  eapply infix_trans; [exact Hx|]. apply infix_concat in HL.
  simpl in HL. now rewrite app_nil_r in HL.
Qed.

(** Text inside one piece of the template. *)
Ltac find_in_piece :=
  eapply occurs_in_piece; [find_infix | vm_compute; reflexivity].

Lemma ul_not_nil : lit "<ul>" <> [].
Proof. discriminate. Qed.

(** X6: in the prompt variant the block of a job holds a list element if
    and only if the job has responsibilities, and the block of a project
    if and only if the project has highlights (for entries whose texts
    hold no tag of their own): an entry without bullets gets no empty
    list.  The form variant's template has no such test: the block of
    every job and of every project holds a list element, empty when there
    are no bullets. *)
Theorem X6_no_empty_list_in_prompt_variant (job : Job.t) (p : Project.t) :
  (plain_job job ->
   (occurs (lit "<ul>") (concat (Resume.tpl_job job))
    <-> Job.responsibilities job <> []))
  /\ (plain_project p ->
      (occurs (lit "<ul>") (concat (Resume.tpl_project p))
       <-> Project.points p <> []))
  /\ occurs (lit "<ul>") (concat (Resume1.tpl_job job))
  /\ occurs (lit "<ul>") (concat (Resume1.tpl_project p)).
Proof.
  repeat apply conj.
  - intros (? & ? & ? & ? & ? & ?). split.
    + intros Ho Hn. revert Ho. apply clean_absent; [apply ul_not_nil|].
      apply truthy_false in Hn. unfold Resume.tpl_job.
      split_pieces; clean_ul.
    + intros Hn. apply truthy_true in Hn. unfold Resume.tpl_job.
      find_in_piece.
  - intros (? & ? & ? & ?). split.
    + intros Ho Hn. revert Ho. apply clean_absent; [apply ul_not_nil|].
      apply truthy_false in Hn. unfold Resume.tpl_project.
      split_pieces; clean_ul.
    + intros Hn. apply truthy_true in Hn. unfold Resume.tpl_project.
      find_in_piece.
  - unfold Resume1.tpl_job.
    find_in_piece.
  - unfold Resume1.tpl_project.
    find_in_piece.
Qed.

(** X6 at a job without responsibilities. *)
Lemma X6_no_empty_list_in_prompt_variant_witness :
  ~ occurs (lit "<ul>")
      (concat (Resume.tpl_job
                 (Job.mk (lit "Intern") (lit "Acme") (lit "2019") (lit "2020")
                         [] []))).
Proof.
  intros Ho.
  refine (proj1 (proj1 (X6_no_empty_list_in_prompt_variant
            (Job.mk (lit "Intern") (lit "Acme") (lit "2019") (lit "2020") [] [])
            (Project.mk [] [] [] [])) _) Ho eq_refl).
  unfold plain_job. simpl.
  repeat first [split | apply Forall_nil | apply plain_nil
               | apply plain_forallb; vm_compute; reflexivity].
Defined.

(** ** What the form variant's template does not read *)

Lemma truthy_map {A B} (f : A -> B) (l : list A) : truthy (map f l) = truthy l.
Proof. now destruct l. Qed.

Lemma tpl_for_map {A} (f : A -> A) (body : A -> list str) (l : list A) :
  (forall x, body (f x) = body x) -> tpl_for (map f l) body = tpl_for l body.
Proof.
  intros H. unfold tpl_for. induction l as [|x l IH]; simpl; [reflexivity|].
  now rewrite H, IH.
Qed.

Lemma tpl_render_read1 (d : ResumeRecord) :
  Resume1.tpl_render (read1 d) = Resume1.tpl_render d.
Proof.
  unfold Resume1.tpl_render, render, Resume1.TEMPLATE, Resume1.tpl_skills,
    Resume1.tpl_strengths, Resume1.tpl_education, Resume1.tpl_summary,
    Resume1.tpl_experience, Resume1.tpl_projects, read1. cbn [name tagline
    email phone location linkedin github summary experience education
    projects skills strengths].
  rewrite !truthy_map.
  rewrite (tpl_for_map read1_job), (tpl_for_map read1_edu),
    (tpl_for_map read1_project); reflexivity.
Qed.

(** X7: the form variant's template never reads the location of a job,
    the location and details of an education entry or the link of a
    project, though the form asks for them: two records that differ in
    these fields only give the same document. *)
Theorem X7_form_template_ignores_four_fields (d d' : ResumeRecord) :
  read1 d = read1 d' -> Resume1.tpl_render d = Resume1.tpl_render d'.
Proof.
  intros H. rewrite <- (tpl_render_read1 d), <- (tpl_render_read1 d').
  now rewrite H.
Qed.

(** X7 at the sample record and the same record with a location for its
    job. *)
Lemma X7_form_template_ignores_four_fields_witness :
  Resume1.tpl_render jane
  = Resume1.tpl_render
      (mkResume (lit "Jane Doe") [] [] [] [] [] [] []
         [Job.mk (lit "Engineer") (lit "Acme") (lit "2020") [] (lit "Berlin")
                 [lit "Built X"; lit "Shipped Y"]]
         [] [] [lit "Languages: Go, Rust"] []).
Proof.
  apply X7_form_template_ignores_four_fields. reflexivity.
Defined.

(** ** The form's repeated groups *)

Lemma collect_length {A} (n : nat) (f : nat -> A) :
  length (Resume1.collect n f) = n.
Proof. unfold Resume1.collect. now rewrite length_map, length_seq. Qed.

Lemma collect_nth {A} (n i : nat) (f : nat -> A) :
  i < n -> nth_error (Resume1.collect n f) i = Some (f i).
Proof.
  intros H. unfold Resume1.collect.
  rewrite nth_error_map, nth_error_seq.
  destruct (Nat.ltb_spec i n); [reflexivity | lia].
Qed.

Lemma length_truthy {A} (l : list A) : 1 <= length l -> truthy l = true.
Proof. destruct l; simpl; [lia | reflexivity]. Qed.

(** X8: the form variant stores one entry per index below the count of a
    group, built from the widgets of that index whatever they hold: the
    job of index [i] from the title, company, start, end, location and
    responsibilities widgets of that index, the education entry from its
    degree, institution, start, end, location and details widgets, the
    project from its name, link, description and highlights widgets, the
    two text areas split at the line breaks.  So the lists are as long as
    the counts (at most 10 jobs, 5 education entries and 10 projects) and
    an entry left wholly blank is stored like any other: with a count of
    one or more the heading of the group is in the document. *)
Theorem X8_form_stores_one_entry_per_index (w : Resume1.W.t) :
  (length (experience (Resume1.data w)) = Resume1.W.exp_count w
   /\ length (education (Resume1.data w)) = Resume1.W.edu_count w
   /\ length (projects (Resume1.data w)) = Resume1.W.proj_count w)
  /\ (forall i, i < Resume1.W.exp_count w ->
        nth_error (experience (Resume1.data w)) i
        = Some (Job.mk (Resume1.W.title_ w i) (Resume1.W.company_ w i)
                       (Resume1.W.start_ w i) (Resume1.W.end_ w i)
                       (Resume1.W.loc_ w i)
                       (Resume1.lines_of (Resume1.W.resps_ w i))))
  /\ (forall i, i < Resume1.W.edu_count w ->
        nth_error (education (Resume1.data w)) i
        = Some (Edu.mk (Resume1.W.degree_ w i) (Resume1.W.institution_ w i)
                       (Resume1.W.edu_start_ w i) (Resume1.W.edu_end_ w i)
                       (Resume1.W.edu_loc_ w i)
                       (Resume1.W.edu_details_ w i)))
  /\ (forall i, i < Resume1.W.proj_count w ->
        nth_error (projects (Resume1.data w)) i
        = Some (Project.mk (Resume1.W.proj_name_ w i)
                           (Resume1.W.proj_link_ w i)
                           (Resume1.W.proj_desc_ w i)
                           (Resume1.lines_of (Resume1.W.proj_points_ w i))))
  /\ (1 <= Resume1.W.exp_count w ->
      occurs (heading Experience) (Resume1.html w))
  /\ (1 <= Resume1.W.edu_count w ->
      occurs (heading Education) (Resume1.html w))
  /\ (1 <= Resume1.W.proj_count w ->
      occurs (heading Projects) (Resume1.html w))
  /\ (in_range w ->
      length (experience (Resume1.data w)) <= 10
      /\ length (education (Resume1.data w)) <= 5
      /\ length (projects (Resume1.data w)) <= 10).
Proof.
  assert (length (experience (Resume1.data w)) = Resume1.W.exp_count w
          /\ length (education (Resume1.data w)) = Resume1.W.edu_count w
          /\ length (projects (Resume1.data w)) = Resume1.W.proj_count w)
    as (H1 & H2 & H3) by (repeat split; apply collect_length).
  repeat apply conj; trivial.
  - intros i Hi. simpl. unfold Resume1.experience. now rewrite collect_nth.
  - intros i Hi. simpl. unfold Resume1.education. now rewrite collect_nth.
  - intros i Hi. simpl. unfold Resume1.projects. now rewrite collect_nth.
  - intros Hc. unfold Resume1.html.
    apply (heading_shown Experience (Resume1.data w) [] noon).
    cbn [present]. apply length_truthy. now rewrite H1.
  - intros Hc. unfold Resume1.html.
    apply (heading_shown Education (Resume1.data w) [] noon).
    cbn [present]. apply length_truthy. now rewrite H2.
  - intros Hc. unfold Resume1.html.
    apply (heading_shown Projects (Resume1.data w) [] noon).
    cbn [present]. apply length_truthy. now rewrite H3.
  - intros (? & ? & ? & ?). lia.
Qed.

(** X8 at the sample form, which has one job, and at a form with one
    education entry and one project. *)
Lemma X8_form_stores_one_entry_per_index_witness :
  nth_error (experience (Resume1.data form)) 0
  = Some (Job.mk (lit "Engineer") (lit "Acme") (lit "2020") [] []
                 [lit "Built X"; []; lit "Shipped Y"])
  /\ occurs (heading Experience) (Resume1.html form)
  /\ nth_error (education (Resume1.data graduate)) 0
     = Some (Edu.mk (lit "BSc") (lit "MIT") (lit "2016") (lit "2019")
                    (lit "Boston") (lit "Physics"))
  /\ nth_error (projects (Resume1.data graduate)) 0
     = Some (Project.mk (lit "Site") (lit "example.org") (lit "A site")
                        [lit "Fast"; lit "Small"]).
Proof.
  split; [|split; [|split]].
  - apply (proj1 (proj2 (X8_form_stores_one_entry_per_index form)) 0).
    simpl. lia.
  - apply (proj1 (proj2 (proj2 (proj2 (proj2
             (X8_form_stores_one_entry_per_index form)))))).
    simpl. lia.
  - apply (proj1 (proj2 (proj2
             (X8_form_stores_one_entry_per_index graduate))) 0).
    simpl. lia.
  - apply (proj1 (proj2 (proj2 (proj2
             (X8_form_stores_one_entry_per_index graduate)))) 0).
    simpl. lia.
Defined.

(** ** The form's skills *)

Lemma concat_map_if {A B} (p : A -> bool) (g : A -> B) (l : list A) :
  concat (map (fun i => if p i then [g i] else []) l) = map g (filter p l).
Proof.
  induction l as [|a l IH]; simpl; [reflexivity|].
  destruct (p a); simpl; now rewrite IH.
Qed.

Lemma form_skills_filter (w : Resume1.W.t) :
  Resume1.skills w
  = map (fun i => if truthy (Resume1.W.skill_sub_ w i)
                  then Resume1.W.skill_main_ w i ++ lit ": "
                       ++ Resume1.W.skill_sub_ w i
                  else Resume1.W.skill_main_ w i)
        (filter (fun i => truthy (Resume1.W.skill_main_ w i))
                (seq 0 (Resume1.W.skills_count w))).
Proof.
  unfold Resume1.skills, Resume1.collect. rewrite <- concat_map_if.
  f_equal. apply map_ext. intros i. unfold Resume1.skill_entry.
  destruct (truthy (Resume1.W.skill_main_ w i)); [|reflexivity].
  now destruct (truthy (Resume1.W.skill_sub_ w i)).
Qed.

(** X9: the form variant stores a skill for exactly the categories whose
    main skill is not empty, in the order of the form: the main skill
    alone, or followed by a colon, a blank and the sub-skill text.  So no
    stored skill is empty, there are at most as many as the count, and a
    category without a main skill stores nothing, its sub-skill text
    included: when no category has a main skill the Skills section yields
    nothing. *)
Theorem X9_form_skills (w : Resume1.W.t) :
  skills (Resume1.data w)
  = map (fun i => if truthy (Resume1.W.skill_sub_ w i)
                  then Resume1.W.skill_main_ w i ++ lit ": "
                       ++ Resume1.W.skill_sub_ w i
                  else Resume1.W.skill_main_ w i)
        (filter (fun i => truthy (Resume1.W.skill_main_ w i))
                (seq 0 (Resume1.W.skills_count w)))
  /\ Forall (fun s => s <> []) (skills (Resume1.data w))
  /\ length (skills (Resume1.data w)) <= Resume1.W.skills_count w
  /\ ((forall i, i < Resume1.W.skills_count w -> Resume1.W.skill_main_ w i = []) ->
      skills (Resume1.data w) = [] /\ pieces1 Skills (Resume1.data w) = []).
Proof.
  cbn [skills Resume1.data]. rewrite form_skills_filter. repeat apply conj.
  - reflexivity.
  - apply Forall_forall. intros s Hs. apply in_map_iff in Hs as (i & <- & Hi).
    apply filter_In in Hi as [_ Hm]. apply truthy_true in Hm.
    destruct (truthy (Resume1.W.skill_sub_ w i)); [|exact Hm].
    destruct (Resume1.W.skill_main_ w i); [now elim Hm | discriminate].
  - rewrite length_map.
    eapply Nat.le_trans; [apply filter_length_le | now rewrite length_seq].
  - intros H.
    assert (filter (fun i => truthy (Resume1.W.skill_main_ w i))
                   (seq 0 (Resume1.W.skills_count w)) = []) as E.
    { destruct (filter _ _) as [|i l] eqn:E; [reflexivity|].
      assert (In i (i :: l)) as Hi by now left. rewrite <- E in Hi.
      apply filter_In in Hi as [Hi Hm]. apply in_seq in Hi.
      rewrite H in Hm by lia. discriminate. }
    rewrite E. split; [reflexivity|].
    cbn [pieces1]. unfold Resume1.tpl_skills. cbn [skills Resume1.data].
    rewrite form_skills_filter, E. reflexivity.
Qed.

(** X9 at a form whose only skill category has sub-skills but no main
    skill. *)
Lemma X9_form_skills_witness :
  skills (Resume1.data
            (Resume1.W.mk (lit "Jane Doe") [] [] [] [] [] [] []
               0 (fun _ => []) (fun _ => []) (fun _ => []) (fun _ => [])
                 (fun _ => []) (fun _ => [])
               0 (fun _ => []) (fun _ => []) (fun _ => []) (fun _ => [])
                 (fun _ => []) (fun _ => [])
               0 (fun _ => []) (fun _ => []) (fun _ => []) (fun _ => [])
               1 (fun _ => []) (fun _ => lit "Go, Rust")
               [])) = [].
Proof.
  refine (proj1 (proj2 (proj2 (proj2 (X9_form_skills _))) _)).
  intros i _. reflexivity.
Defined.

(** ** The lines of a text area *)

Lemma split_nl_not_nil (s : str) : split_nl s <> [].
Proof.
  induction s as [|c s IH]; simpl; [discriminate|].
  destruct (c =? 10)%N; [discriminate|]. destruct (split_nl s); discriminate.
Qed.

Lemma join_split_nl (s : str) : join [10%N] (split_nl s) = s.
Proof.
  induction s as [|c s IH]; [reflexivity|]. simpl split_nl.
  destruct (c =? 10)%N eqn:E.
  - apply N.eqb_eq in E. subst c.
    pose proof (split_nl_not_nil s) as Hn.
    destruct (split_nl s) as [|h t]; [now elim Hn|].
    change (join [10%N] ([] :: h :: t)) with (10%N :: join [10%N] (h :: t)).
    now rewrite IH.
  - pose proof (split_nl_not_nil s) as Hn.
    destruct (split_nl s) as [|h t]; [now elim Hn|].
    rewrite <- IH. destruct t; reflexivity.
Qed.

Lemma split_nl_one_line (s : str) : Forall one_line (split_nl s).
Proof.
  induction s as [|c s IH]; simpl.
  - constructor; [intros H; exact H | constructor].
  - destruct (c =? 10)%N eqn:E.
    + constructor; [intros H; exact H | exact IH].
    + destruct (split_nl s) as [|h t]; [repeat constructor|].
      * intros [H|H]; [subst; discriminate | exact H].
      * inversion IH as [|? ? Hh Ht]; subst. constructor; [|exact Ht].
        intros [H|H]; [subst; discriminate | now apply Hh].
Qed.

Lemma split_nl_app (x s : str) :
  one_line x -> split_nl (x ++ 10%N :: s) = x :: split_nl s.
Proof.
  unfold one_line. induction x as [|c x IH]; intros H; [reflexivity|].
  simpl. destruct (c =? 10)%N eqn:E.
  - apply N.eqb_eq in E. subst. elim H. now left.
  - rewrite IH; [reflexivity|]. intros Hin. apply H. now right.
Qed.

Lemma split_nl_line (x : str) : one_line x -> split_nl x = [x].
Proof.
  unfold one_line. induction x as [|c x IH]; intros H; [reflexivity|].
  simpl. destruct (c =? 10)%N eqn:E.
  - apply N.eqb_eq in E. subst. elim H. now left.
  - rewrite IH; [reflexivity|]. intros Hin. apply H. now right.
Qed.

Lemma split_nl_join (ls : list str) :
  Forall one_line ls -> ls <> [] -> split_nl (join [10%N] ls) = ls.
Proof.
  induction 1 as [|x ls Hx Hls IH]; intros Hn; [now elim Hn|].
  destruct ls as [|y ls].
  - simpl. now apply split_nl_line.
  - change (join [10%N] (x :: y :: ls)) with (x ++ 10%N :: join [10%N] (y :: ls)).
    rewrite (split_nl_app _ _ Hx), IH; [reflexivity | discriminate].
Qed.

(** X10: the lines the form variant stores for a text area lose nothing
    of the text: joined with line breaks they give the text back.  No
    stored line holds a line break, an empty text (and no other) stores
    no line, and no text stores just one empty line. *)
Theorem X10_lines_of_text_area (text : str) :
  join [10%N] (Resume1.lines_of text) = text
  /\ Forall one_line (Resume1.lines_of text)
  /\ (Resume1.lines_of text = [] <-> text = [])
  /\ Resume1.lines_of text <> [[]].
Proof.
  unfold Resume1.lines_of. destruct text as [|c text].
  - simpl. repeat split; try constructor; discriminate.
  - cbn [truthy]. repeat split.
    + apply join_split_nl.
    + apply split_nl_one_line.
    + intros H. now apply split_nl_not_nil in H.
    + discriminate.
    + intros H. pose proof (join_split_nl (c :: text)) as E.
      rewrite H in E. discriminate.
Qed.

(** X11: every list of lines without line breaks, except the list of one
    empty line, is what the form variant stores for the text that joins
    them with line breaks. *)
Theorem X11_lines_of_joined_lines (ls : list str) :
  Forall one_line ls -> ls <> [[]] ->
  Resume1.lines_of (join [10%N] ls) = ls.
Proof.
  intros Hl Hn. unfold Resume1.lines_of.
  destruct (join [10%N] ls) as [|c r] eqn:E.
  - destruct ls as [|x [|y ls]]; [reflexivity | | ].
    + simpl in E. subst. now elim Hn.
    + change (join [10%N] (x :: y :: ls))
        with (x ++ 10%N :: join [10%N] (y :: ls)) in E.
      now destruct x.
  - cbn [truthy]. rewrite <- E. apply split_nl_join; [exact Hl|].
    intros ->. discriminate.
Qed.

(** X11 at two lines with an empty line between them. *)
Lemma X11_lines_of_joined_lines_witness :
  Resume1.lines_of two_lines = [lit "Built X"; []; lit "Shipped Y"].
Proof.
  apply (X11_lines_of_joined_lines [lit "Built X"; []; lit "Shipped Y"]).
  - unfold one_line.
    repeat constructor; intros H; vm_compute in H; intuition discriminate.
  - discriminate.
Defined.

(** X10 at the text of two lines with an empty line between them. *)
Lemma X10_lines_of_text_area_witness :
  join [10%N] (Resume1.lines_of two_lines) = two_lines
  /\ Resume1.lines_of [] = [].
Proof.
  split.
  - exact (proj1 (X10_lines_of_text_area two_lines)).
  - apply (proj1 (proj2 (proj2 (X10_lines_of_text_area [])))). reflexivity.
Defined.

(** ** The lines of an education entry and of a project *)

Lemma edu_in_output (d : ResumeRecord) (css : str) (now : Resume.datetime)
      (e : Edu.t) :
  In e (education d) ->
  occurs (concat (Resume.tpl_edu e)) (Resume.render_html d css now).
Proof. intros H. now apply infix_concat, edu_in_template. Qed.

Lemma edu_in_output1 (d : ResumeRecord) (e : Edu.t) :
  In e (education d) ->
  occurs (concat (Resume1.tpl_edu e)) (Resume1.tpl_render d).
Proof. intros H. now apply infix_concat, edu_in_template1. Qed.

(** X12: for every education entry of the record the prompt variant
    outputs the line of its dates and location with each field as it is
    stored (an empty end date stays empty: only jobs show Present), and
    its details in an element of their own when they are not empty; the
    form variant outputs the institution and the two dates. *)
Theorem X12_education_lines
        (d : ResumeRecord) (css : str) (now : Resume.datetime) (e : Edu.t) :
  In e (education d) ->
  occurs (edu_dates e) (Resume.render_html d css now)
  /\ (Edu.details e <> [] ->
      occurs (lit "<div>" ++ Edu.details e ++ lit "</div>")
             (Resume.render_html d css now))
  /\ occurs (edu_dates1 e) (Resume1.tpl_render d).
Proof.
  intros H. repeat apply conj.
  - apply infix_trans with (concat (Resume.tpl_edu e));
      [|now apply edu_in_output].
    unfold Resume.tpl_edu, edu_dates. rewrite !py_or_empty.
    find_text (lit "<div class=`meta`>")
      [Edu.start_date e; lit " " ++ Resume.emdash ++ lit " "; Edu.end_date e;
       lit " " ++ Resume.middot ++ lit " "; Edu.location e]
      (lit "</div>").
  - intros Hd. apply infix_trans with (concat (Resume.tpl_edu e));
      [|now apply edu_in_output].
    unfold Resume.tpl_edu.
    find_text (lit "<div>") [Edu.details e] (lit "</div>").
  - apply infix_trans with (concat (Resume1.tpl_edu e));
      [|now apply edu_in_output1].
    unfold Resume1.tpl_edu, edu_dates1.
    find_text (lit "<br>")
      [Edu.institution e; lit "<br>"; Edu.start_date e; lit " - ";
       Edu.end_date e]
      (lit "</div>").
Qed.

(** X12 at a degree without an end date. *)
Lemma X12_education_lines_witness :
  occurs (lit "<div class=`meta`>2021 " ++ Resume.emdash ++ lit "  "
            ++ Resume.middot ++ lit " </div>")
    (Resume.render_html
       (mkResume (lit "Jane Doe") [] [] [] [] [] [] [] []
          [Edu.mk (lit "BSc") (lit "MIT") (lit "2021") [] [] []] [] [] [])
       Resume.CSS noon).
Proof.
  apply (proj1 (X12_education_lines
           (mkResume (lit "Jane Doe") [] [] [] [] [] [] [] []
              [Edu.mk (lit "BSc") (lit "MIT") (lit "2021") [] [] []] [] [] [])
           Resume.CSS noon
           (Edu.mk (lit "BSc") (lit "MIT") (lit "2021") [] [] [])
           (or_introl eq_refl))).
Defined.

(** X13: for every project of the record the prompt variant outputs its
    link and its description, each in an element of its own, when they
    are not empty; the form variant outputs a description that is not
    empty as a paragraph. *)
Theorem X13_project_lines
        (d : ResumeRecord) (css : str) (now : Resume.datetime)
        (p : Project.t) :
  In p (projects d) ->
  (Project.link p <> [] ->
   occurs (lit "<div class=`meta`>" ++ Project.link p ++ lit "</div>")
          (Resume.render_html d css now))
  /\ (Project.description p <> [] ->
      occurs (lit "<div>" ++ Project.description p ++ lit "</div>")
             (Resume.render_html d css now)
      /\ occurs (lit "<p>" ++ Project.description p ++ lit "</p>")
                (Resume1.tpl_render d)).
Proof.
  intros H. split; [|split].
  - intros Hl. apply infix_trans with (concat (Resume.tpl_project p));
      [|now apply project_in_output].
    unfold Resume.tpl_project.
    find_text (lit "<div class=`meta`>") [Project.link p] (lit "</div>").
  - apply infix_trans with (concat (Resume.tpl_project p));
      [|now apply project_in_output].
    unfold Resume.tpl_project.
    find_text (lit "<div>") [Project.description p] (lit "</div>").
  - apply infix_trans with (concat (Resume1.tpl_project p));
      [|now apply project_in_output1].
    unfold Resume1.tpl_project.
    find_text (lit "<p>") [Project.description p] (lit "</p>").
Qed.

(** X13 at a project with a link. *)
Lemma X13_project_lines_witness :
  occurs (lit "<div class=`meta`>example.org</div>")
    (Resume.render_html
       (mkResume (lit "Jane Doe") [] [] [] [] [] [] [] [] []
          [Project.mk (lit "Site") (lit "example.org") [] []] [] [])
       Resume.CSS noon).
Proof.
  apply (proj1 (X13_project_lines
           (mkResume (lit "Jane Doe") [] [] [] [] [] [] [] [] []
              [Project.mk (lit "Site") (lit "example.org") [] []] [] [])
           Resume.CSS noon
           (Project.mk (lit "Site") (lit "example.org") [] [])
           (or_introl eq_refl))).
  discriminate.
Defined.

(** ** A run of main with every group skipped *)

Lemma encodable_digit (n : N) : Resume.encodable [Resume.digit (n mod 10)] = true.
Proof.
  unfold Resume.encodable, Resume.digit. cbn [forallb].
  pose proof (mod10_lt n) as H. rewrite andb_true_r.
  apply orb_true_iff. left. apply N.ltb_lt.
  generalize dependent (n mod 10)%N. intros m H. lia.
Qed.

Lemma encodable_pad2 (n : N) : Resume.encodable (Resume.pad2 n) = true.
Proof.
  unfold Resume.pad2.
  change [Resume.digit (n / 10 mod 10); Resume.digit (n mod 10)]
    with ([Resume.digit (n / 10 mod 10)] ++ [Resume.digit (n mod 10)]).
  now rewrite encodable_app, !encodable_digit.
Qed.

Lemma encodable_pad4 (n : N) : Resume.encodable (Resume.pad4 n) = true.
Proof.
  unfold Resume.pad4.
  change (Resume.encodable
            ([Resume.digit (n / 1000 mod 10)] ++ [Resume.digit (n / 100 mod 10)]
             ++ [Resume.digit (n / 10 mod 10)] ++ [Resume.digit (n mod 10)])
          = true).
  now rewrite !encodable_app, !encodable_digit.
Qed.

(** The time stamp holds digits and ASCII punctuation only. *)
Lemma encodable_strftime (now : Resume.datetime) :
  Resume.encodable (Resume.strftime now) = true.
Proof.
  unfold Resume.strftime.
  rewrite !encodable_app, encodable_pad4, !encodable_pad2.
  reflexivity.
Qed.

(** The fixed text of the template and the module's style sheet can be
    encoded, so the name decides. *)
Lemma encodable_minimal_document (n : str) (now : Resume.datetime) :
  Resume.encodable (minimal_document n Resume.CSS (Resume.strftime now))
  = Resume.encodable n.
Proof.
  unfold minimal_document.
  rewrite !encodable_app, encodable_strftime.
  assert (Resume.encodable Resume.CSS = true) as -> by (vm_compute; reflexivity).
  repeat match goal with
         | |- context [Resume.encodable (lit ?s)] =>
             change (Resume.encodable (lit s)) with true
         end.
  now destruct (Resume.encodable n).
Qed.

(** X14: a run of [main] in which only the name prompt is answered, and
    the twelve prompts after it with empty lines, on a file system that
    opens the file named by the output argument and [.html].  When the
    name holds no surrogate code point the run saves in that file the
    document that holds the template's fixed text around the name, the
    module's style sheet and the time stamp.  When the name holds one
    (as the name [Jane] followed by U+DCFF does), the write raises
    [UnicodeEncodeError] and the file is left empty. *)
Theorem X14_main_with_name_only
        (n output : str) (now : Resume.datetime) (fs : Resume.files) :
  Resume.opens fs (output ++ lit ".html") = true ->
  Resume.main output (n :: repeat [] 12) now fs
  = if Resume.encodable n
    then Resume.Saved
           (Resume.write fs (output ++ lit ".html")
              (minimal_document n Resume.CSS (Resume.strftime now)))
           []
    else Resume.Raised_UnicodeEncodeError
           (Resume.write fs (output ++ lit ".html") []).
Proof.
  intros H. unfold Resume.main.
  change (Resume.interactive_fill (n :: repeat [] 12))
    with (Resume.Ok (only_name n) []).
  cbv beta iota zeta. rewrite H, render_only_name, encodable_minimal_document.
  reflexivity.
Qed.

(** X14 with the default output name on an empty file system, at a name
    that can be encoded and at one that ends in U+DCFF. *)
Lemma X14_main_with_name_only_witness :
  Resume.main Resume.default_output (lit "Jane Doe" :: repeat [] 12)
    noon no_files
  = Resume.Saved
      (Resume.write no_files (lit "resume.html")
         (minimal_document (lit "Jane Doe") Resume.CSS (Resume.strftime noon)))
      []
  /\ Resume.main Resume.default_output
       ((lit "Jane " ++ [56575%N]) :: repeat [] 12) noon no_files
     = Resume.Raised_UnicodeEncodeError
         (Resume.write no_files (lit "resume.html") []).
Proof.
  split.
  - apply (X14_main_with_name_only (lit "Jane Doe") Resume.default_output
             noon no_files).
    reflexivity.
  - apply (X14_main_with_name_only (lit "Jane " ++ [56575%N])
             Resume.default_output noon no_files).
    reflexivity.
Defined.

(** ** A bullet list and the end of the input *)

Lemma until_blank_none (ls : list str) :
  Forall (fun l => blank l = false) ls -> until_blank ls = None.
Proof.
  induction 1 as [|l ls Hl _ IH]; simpl; [reflexivity|].
  now rewrite Hl, IH.
Qed.

(** X15: the loop that reads the bullets of a list stops only at a blank
    line.  Lines that are not blank, followed by a blank line, are stored
    stripped and in order, and what follows the blank line is left
    unread; when the input ends before a blank line the loop raises
    [EOFError] and the bullets read so far are lost. *)
Theorem X15_bullet_list_needs_blank_line (ls : list str) :
  Forall (fun l => blank l = false) ls ->
  (forall b rest,
      blank b = true ->
      Resume.bullet_lines (ls ++ b :: rest) = Resume.Ok (map strip ls) rest)
  /\ Resume.bullet_lines ls = Resume.EOFError.
Proof.
  intros H. split.
  - intros b rest Hb. rewrite bullet_lines_spec.
    pose proof (until_blank_app ls b rest H Hb) as E.
    cbv [str char] in *. now rewrite E.
  - rewrite bullet_lines_spec. now rewrite (until_blank_none ls H).
Qed.

(** X15 at two bullets that no blank line follows. *)
Lemma X15_bullet_list_needs_blank_line_witness :
  Resume.bullet_lines [lit "Built X"; lit "Shipped Y"] = Resume.EOFError.
Proof.
  apply (X15_bullet_list_needs_blank_line [lit "Built X"; lit "Shipped Y"]).
  repeat constructor.
Defined.

(** ** The first answer of the job group and the Experience section *)

Lemma experience_round_inv (acc : list Job.t) (inp : list str)
      (r : Resume.step (list Job.t)) (rest : list str) :
  Resume.experience_round acc inp = Resume.Ok r rest ->
  exists title more,
    inp = title :: more
    /\ ((blank title = true /\ r = Resume.Break acc)
        \/ (blank title = false
            /\ exists j, r = Resume.Continue (acc ++ [j]))).
Proof.
  intros H. unfold Resume.experience_round in H.
  apply bind_Ok in H as (title & mid & H1 & H). apply input_Ok in H1.
  exists title, mid. split; [exact H1|]. fold (blank title) in H.
  destruct (blank title); run_inv; [left | right]; eauto.
Qed.

Lemma experience_loop_empty_iff (inp : list str) (l : list Job.t)
      (rest : list str) :
  Resume.experience_loop inp = Resume.Ok l rest ->
  (l = [] <-> exists b, hd_error inp = Some b /\ blank b = true).
Proof.
  unfold Resume.experience_loop. intros H.
  destruct (Resume.experience_round [] inp) as [r rest1| |] eqn:E.
  - destruct (experience_round_inv _ _ _ _ E)
      as (title & more & -> & [[Hb ->] | [Hb (j & ->)]]).
    + rewrite (while_true_breaks _ _ _ _ E) in H. injection H as <- _.
      split; [|reflexivity]. intros _. now exists title.
    + rewrite (while_true_continue _ _ _ _ _ experience_round_consumes E) in H.
      assert (l <> []) as Hl.
      { revert H. apply (while_true_invariant (fun s => s <> [])).
        - intros s inp' r rest' Hs Hr.
          destruct (experience_round_inv _ _ _ _ Hr)
            as (? & ? & _ & [[_ ->] | [_ (j' & ->)]]); simpl; [exact Hs|].
          now destruct s.
        - discriminate. }
      split; [intros ->; now elim Hl|].
      intros (b & Hh & Hbb). simpl in Hh. injection Hh as <-. congruence.
  - unfold Resume.while_true in H. simpl in H. rewrite E in H. discriminate.
  - unfold Resume.while_true in H. simpl in H. rewrite E in H. discriminate.
Qed.

(** X16: a record that [interactive_fill] returns has no job exactly when
    the ninth line of the input, the answer to the first job title
    prompt, is blank; the Experience section of both templates then
    yields nothing. *)
Theorem X16_no_job_iff_first_title_blank
        (inp : list str) (d : ResumeRecord) (rest : list str) :
  Resume.interactive_fill inp = Resume.Ok d rest ->
  (experience d = [] <-> exists b, nth_error inp 8 = Some b /\ blank b = true)
  /\ (experience d = [] ->
      pieces Experience d = [] /\ pieces1 Experience d = []).
Proof.
  intros H. split.
  - unfold Resume.interactive_fill in H. run_inv. simpl.
    match goal with
    | He : Resume.experience_loop ?i = Resume.Ok ?l _ |- _ =>
        rewrite (experience_loop_empty_iff i l _ He)
    end.
    match goal with
    | |- context [hd_error ?i] => now destruct i
    end.
  - intros E. apply pieces_absent. simpl. now rewrite E.
Qed.

(** X16 at thirteen empty lines. *)
Lemma X16_no_job_iff_first_title_blank_witness :
  experience (only_name []) = []
  <-> exists b, nth_error (repeat (@nil char) 13) 8 = Some b /\ blank b = true.
Proof.
  exact (proj1 (X16_no_job_iff_first_title_blank
                  (repeat [] 13) (only_name []) [] eq_refl)).
Defined.
